(** * Uniform inventory system: the stock ledger and its SQLite store

    A shallow embedding of [inventory_system/db.py], [operations.py] and
    the command handlers of [cli.py] and [web.py].

    The four tables of [db.py] are the fields of [database].  A Python
    [str] is a sequence of Unicode code points, so text is [list N];
    SQLite's BINARY collation compares the UTF-8 encodings byte by byte,
    which is the lexicographic order of the code points.  A Python [int]
    is an unbounded integer, [Z]; the development takes the INTEGER
    columns at their mathematical value (all arithmetic done by the
    statements is one addition per movement).  SQL NULL and Python [None]
    are [None]. *)

From stdpp Require Import strings pretty sorting lexico orders gmap base numbers
  option list.

Open Scope Z_scope.

(** ** Text *)

Abbreviation text := (list N).

(** An ASCII literal of the source, as code points. *)
Definition str (s : string) : text :=
  Ascii.N_of_ascii <$> String.list_ascii_of_string s.

(** [a <= b] under the BINARY collation. *)
Definition text_le (a b : text) : Prop := ¬ lexico b a.

(** ** Rows (the dataclasses of [operations.py], the columns of [db.py]) *)

Record Employee := mkEmployee {
  emp_id : Z;
  emp_name : text;
  emp_role : text;
  emp_badge : option text
}.

Record Item := mkItem {
  item_id : Z;
  item_name : text;
  item_size : text;
  item_category : text;
  item_min_stock : Z
}.

Record Transaction := mkTransaction {
  txn_id : Z;
  txn_item_id : Z;
  txn_employee_id : option Z;
  txn_type : text;
  txn_quantity : Z;
  txn_note : text;
  txn_created_at : text
}.

Global Instance Employee_eq_dec : EqDecision Employee.
Proof. solve_decision. Defined.
Global Instance Item_eq_dec : EqDecision Item.
Proof. solve_decision. Defined.
Global Instance Transaction_eq_dec : EqDecision Transaction.
Proof. solve_decision. Defined.

(** ** The database file

    [employees], [items] and [transactions] are kept in rowid order (rows
    are only ever appended or updated in place; nothing is deleted).
    [stock_levels] has [item_id] as its PRIMARY KEY, so it is a finite map
    from item identifiers to quantities.  The three [seq_] fields are the
    [sqlite_sequence] entries of the AUTOINCREMENT tables. *)

Record database := mkDatabase {
  employees : list Employee;
  items : list Item;
  stock_levels : gmap Z Z;
  transactions : list Transaction;
  seq_employees : Z;
  seq_items : Z;
  seq_transactions : Z
}.

(** [init_db] on a new file: [CREATE TABLE IF NOT EXISTS] four times. *)
Definition empty_db : database :=
  mkDatabase [] [] ∅ [] 0 0 0.

(** AUTOINCREMENT: one more than the largest rowid ever handed out, which
    is at least the largest rowid in the table. *)
Definition next_rowid (seq : Z) (ids : list Z) : Z :=
  foldr Z.max seq ids + 1.

(** ** Exceptions and the connection monad *)

Inductive error :=
  | IntegrityError
  | ValueError (msg : text).

Inductive result (A : Type) :=
  | Ok (a : A)
  | Raise (e : error).
Global Arguments Ok {A} a.
Global Arguments Raise {A} e.

(** Code that works on the database file and may raise.  Inside a [with]
    block the state is the content seen by the connection: an exception
    leaves the effects of the statements before it pending in the open
    transaction.  Between blocks it is the committed content of the file. *)
Definition conn (A : Type) : Type := database → result A * database.

Global Instance conn_ret : MRet conn := λ A a db, (Ok a, db).

Global Instance conn_bind : MBind conn := λ A B k m db,
  match m db with
  | (Ok a, db') => k a db'
  | (Raise e, db') => (Raise e, db')
  end.

(** [raise exc] *)
Definition raise {A} (e : error) : conn A := λ db, (Raise e, db).

(** [with get_connection() as conn: body].  Leaving the block normally
    commits; leaving it by an exception rolls the open transaction back
    and the exception goes on to the caller. *)
Definition with_connection {A} (body : conn A) : conn A := λ db,
  match body db with
  | (Ok a, db') => (Ok a, db')
  | (Raise e, _) => (Raise e, db)
  end.

(** A SELECT: reads, writes nothing. *)
Definition select {A} (q : database → A) : conn A := λ db, (Ok (q db), db).

(** ** The statements of [operations.py]

    [get_connection] turns foreign keys on, so every INSERT checks its
    references.  A statement that raises has no effect of its own. *)

Definition employee_ids (db : database) : list Z := emp_id <$> employees db.
Definition item_ids (db : database) : list Z := item_id <$> items db.
Definition transaction_ids (db : database) : list Z := txn_id <$> transactions db.

Definition item_key (i : Item) : text * text * text :=
  (item_name i, item_size i, item_category i).

Definition replace_employee (e' : Employee) (l : list Employee) : list Employee :=
  (λ e, if decide (emp_id e = emp_id e') then e' else e) <$> l.

Definition replace_item (i' : Item) (l : list Item) : list Item :=
  (λ i, if decide (item_id i = item_id i') then i' else i) <$> l.

(** [INSERT INTO employees (name, role, badge) VALUES (?, ?, ?)
     ON CONFLICT(badge) DO UPDATE SET name=excluded.name, role=excluded.role
     RETURNING id, name, role, badge].
    A NULL badge conflicts with nothing.  The new rowid is drawn before
    the uniqueness check, so the sequence advances on both paths. *)
Definition upsert_employee (name role : text) (badge : option text)
  : conn Employee := λ db,
  let rowid := next_rowid (seq_employees db) (employee_ids db) in
  match badge ≫= λ b, list_find (λ e, emp_badge e = Some b) (employees db) with
  | Some (_, e) =>
      let e' := mkEmployee (emp_id e) name role (emp_badge e) in
      (Ok e',
       mkDatabase (replace_employee e' (employees db)) (items db)
         (stock_levels db) (transactions db)
         rowid (seq_items db) (seq_transactions db))
  | None =>
      let e' := mkEmployee rowid name role badge in
      (Ok e',
       mkDatabase (employees db ++ [e']) (items db)
         (stock_levels db) (transactions db)
         rowid (seq_items db) (seq_transactions db))
  end.

(** [INSERT INTO items (name, size, category, min_stock) VALUES (?, ?, ?, ?)
     ON CONFLICT(name, size, category) DO UPDATE SET min_stock=excluded.min_stock
     RETURNING id, name, size, category, min_stock] *)
Definition upsert_item (name size category : text) (min_stock : Z)
  : conn Item := λ db,
  let rowid := next_rowid (seq_items db) (item_ids db) in
  match list_find (λ i, item_key i = (name, size, category)) (items db) with
  | Some (_, i) =>
      let i' := mkItem (item_id i) (item_name i) (item_size i)
                  (item_category i) min_stock in
      (Ok i',
       mkDatabase (employees db) (replace_item i' (items db))
         (stock_levels db) (transactions db)
         (seq_employees db) rowid (seq_transactions db))
  | None =>
      let i' := mkItem rowid name size category min_stock in
      (Ok i',
       mkDatabase (employees db) (items db ++ [i'])
         (stock_levels db) (transactions db)
         (seq_employees db) rowid (seq_transactions db))
  end.

(** [INSERT INTO stock_levels (item_id, quantity) VALUES (?, 0)
     ON CONFLICT(item_id) DO NOTHING] *)
Definition insert_stock_level_or_ignore (item : Z) : conn () := λ db,
  match stock_levels db !! item with
  | Some _ => (Ok (), db)
  | None =>
      if decide (item ∈ item_ids db) then
        (Ok (),
         mkDatabase (employees db) (items db)
           (<[item := 0]> (stock_levels db)) (transactions db)
           (seq_employees db) (seq_items db) (seq_transactions db))
      else (Raise IntegrityError, db)
  end.

(** [UPDATE stock_levels SET quantity = quantity + ? WHERE item_id = ?] *)
Definition update_stock_level (quantity item : Z) : conn () := λ db,
  (Ok (),
   mkDatabase (employees db) (items db)
     (alter (λ q, q + quantity) item (stock_levels db)) (transactions db)
     (seq_employees db) (seq_items db) (seq_transactions db)).

(** A nullable reference to [employees(id)]: NULL refers to nothing. *)
Definition employee_ref_ok (db : database) (employee : option Z) : Prop :=
  match employee with
  | Some e => e ∈ employee_ids db
  | None => True
  end.

Global Instance employee_ref_ok_dec db employee :
  Decision (employee_ref_ok db employee).
Proof. destruct employee; simpl; apply _. Defined.

(** [INSERT INTO transactions (item_id, employee_id, type, quantity, note)
     VALUES (?, ?, ?, ?, ?)
     RETURNING id, item_id, employee_id, type, quantity, note, created_at].
    [now] is what CURRENT_TIMESTAMP evaluates to. *)
Definition insert_transaction (item : Z) (employee : option Z)
    (ttype : text) (quantity : Z) (note now : text) : conn Transaction := λ db,
  let rowid := next_rowid (seq_transactions db) (transaction_ids db) in
  if decide (item ∈ item_ids db ∧ employee_ref_ok db employee) then
    let t := mkTransaction rowid item employee ttype quantity note now in
    (Ok t,
     mkDatabase (employees db) (items db)
       (stock_levels db) (transactions db ++ [t])
       (seq_employees db) (seq_items db) rowid)
  else (Raise IntegrityError, db).


(** ** Employee helpers *)

(** "未找到员工：" *)
Definition EMPLOYEE_NOT_FOUND : text :=
  [26410; 25214; 21040; 21592; 24037; 65306]%N.

(** "未找到该款式，请先使用 add-item 创建：" *)
Definition ITEM_NOT_FOUND : text :=
  [26410; 25214; 21040; 35813; 27454; 24335; 65292; 35831; 20808; 20351;
   29992; 32; 97; 100; 100; 45; 105; 116; 101; 109; 32; 21019; 24314;
   65306]%N.

Definition add_employee (name role : text) (badge : option text)
  : conn Employee :=
  with_connection (upsert_employee name role badge).

(** [SELECT * FROM employees WHERE name = ?], [fetchone] *)
Definition get_employee (name : text)
  : conn Employee :=
  with_connection (
    row ← select (λ db, list_find (λ e, emp_name e = name) (employees db));
    match row with
    | Some (_, e) => mret e
    | None => raise (ValueError (EMPLOYEE_NOT_FOUND ++ name))
    end).

(** ** Item helpers *)

Definition add_item (name size category : text) (min_stock : Z)
  : conn Item :=
  with_connection (
    row ← upsert_item name size category min_stock;
    insert_stock_level_or_ignore (item_id row);;
    mret row).

Definition ensure_item (name size category : text) : conn Item :=
  row ← with_connection
          (select (λ db, list_find (λ i, item_key i = (name, size, category))
                           (items db)));
  match row with
  | Some (_, i) => mret i
  | None =>
      raise (ValueError (ITEM_NOT_FOUND ++ name ++ [32%N] ++ size
                           ++ [32%N] ++ category))
  end.

(** ** Transactions *)

Definition log_transaction (item_id quantity : Z) (ttype note : text)
    (employee_id : option Z) (now : text)
  : conn Transaction :=
  with_connection (
    transaction ← insert_transaction item_id employee_id ttype quantity note now;
    insert_stock_level_or_ignore item_id;;
    update_stock_level quantity item_id;;
    mret transaction).

(** ** SQL expressions used by the queries *)

(** [a < b] on nullable integers: NULL when an operand is NULL. *)
Definition sql_lt (a b : option Z) : option bool :=
  match a, b with
  | Some x, Some y => Some (bool_decide (x < y))
  | _, _ => None
  end.

(** [CASE WHEN c THEN a ELSE b END]: the ELSE branch unless [c] is true. *)
Definition case_when {A} (c : option bool) (a b : A) : A :=
  match c with
  | Some true => a
  | _ => b
  end.

(** [COALESCE(a, d)] *)
Definition coalesce {A} (a : option A) (d : A) : A := default d a.

(** [LEFT JOIN]: the matching rows, or one all-NULL row when none matches. *)
Definition left_join {A} (matches : list A) : list (option A) :=
  match matches with
  | [] => [None]
  | _ => Some <$> matches
  end.

(** [ORDER BY key] and [ORDER BY key DESC] under the BINARY collation. *)
Definition order_by {A K} `{Lexico K, ∀ x y : K, Decision (lexico x y)}
    (key : A → K) : list A → list A :=
  merge_sort (λ a b, ¬ lexico (key b) (key a)).

Definition order_by_desc {A K} `{Lexico K, ∀ x y : K, Decision (lexico x y)}
    (key : A → K) : list A → list A :=
  merge_sort (λ a b, ¬ lexico (key a) (key b)).

(** SQLite folds the case of the 26 ASCII letters only. *)
Definition ascii_lower (c : N) : N :=
  if decide (65 ≤ c ≤ 90)%N then (c + 32)%N else c.

(** [s LIKE pattern]: [%] (37) stands for any run of characters, [_] (95)
    for any one character, any other character for itself up to ASCII
    case. *)
Fixpoint like (pattern s : text) : bool :=
  match pattern with
  | [] => bool_decide (s = [])
  | c :: p =>
      if decide (c = 37%N) then
        (fix any (s : text) : bool :=
           like p s || match s with
                       | [] => false
                       | _ :: s' => any s'
                       end) s
      else
        match s with
        | [] => false
        | d :: s' =>
            (bool_decide (c = 95%N)
             || bool_decide (ascii_lower c = ascii_lower d))
            && like p s'
        end
  end.

(** [f"%{name}%"] *)
Definition contains_pattern (name : text) : text :=
  [37%N] ++ name ++ [37%N].

(** ** Reporting *)

Definition list_employees
  : conn (list Employee) :=
  with_connection (select (λ db, order_by emp_name (employees db))).

Record ItemRow := mkItemRow {
  ir_id : Z;
  ir_name : text;
  ir_size : text;
  ir_category : text;
  ir_min_stock : Z;
  ir_quantity : Z
}.

Definition list_items : conn (list ItemRow) :=
  with_connection (select (λ db,
    order_by (λ r, (ir_name r, ir_size r))
      ((λ i, mkItemRow (item_id i) (item_name i) (item_size i)
               (item_category i) (item_min_stock i)
               (coalesce (stock_levels db !! item_id i) 0)) <$> items db))).

(** "⚠️ 低于安全库存" *)
Definition LOW_STOCK_ALERT : text :=
  [9888; 65039; 32; 20302; 20110; 23433; 20840; 24211; 23384]%N.

Record StatusRow := mkStatusRow {
  sr_id : Z;
  sr_name : text;
  sr_size : text;
  sr_category : text;
  sr_quantity : option Z;
  sr_min_stock : Z;
  sr_alert : text
}.

Definition status_row (db : database) (i : Item) : StatusRow :=
  let quantity := stock_levels db !! item_id i in
  mkStatusRow (item_id i) (item_name i) (item_size i) (item_category i)
    quantity (item_min_stock i)
    (case_when (sql_lt quantity (Some (item_min_stock i))) LOW_STOCK_ALERT []).

Definition get_status_rows : conn (list StatusRow) :=
  with_connection (select (λ db,
    order_by (λ r, (sr_name r, sr_size r)) (status_row db <$> items db))).

Definition TRANSACTION_LABELS : gmap text text :=
  list_to_map
    [(str "stock_in", [20837; 24211; 47; 34917; 36135]%N);
     (str "issue", [21457; 25918]%N);
     (str "return", [24402; 36824]%N);
     (str "adjust", [30424; 28857; 35843; 25972]%N)].

Record HistoryRow := mkHistoryRow {
  h_id : Z;
  h_name : text;
  h_size : text;
  h_category : text;
  h_employee : text;
  h_type : text;
  h_quantity : Z;
  h_note : text;
  h_created_at : text;
  h_type_label : text
}.

(** [FROM transactions t JOIN items i ON i.id = t.item_id
     LEFT JOIN employees e ON e.id = t.employee_id] *)
Definition history_join (db : database)
  : list (Transaction * Item * option Employee) :=
  t ← transactions db;
  i ← filter (λ i, item_id i = txn_item_id t) (items db);
  e ← left_join (filter (λ e, Some (emp_id e) = txn_employee_id t)
                   (employees db));
  [(t, i, e)].

(** [if name: query.append("AND col LIKE ?")]: no condition for [None]
    and for the empty string; a NULL column matches no pattern. *)
Definition like_filter (param : option text) (column : option text) : bool :=
  match param with
  | Some (c :: rest) =>
      match column with
      | Some v => like (contains_pattern (c :: rest)) v
      | None => false
      end
  | _ => true
  end.

Definition history_row (r : Transaction * Item * option Employee)
  : HistoryRow :=
  let '(t, i, e) := r in
  mkHistoryRow (txn_id t) (item_name i) (item_size i) (item_category i)
    (coalesce (emp_name <$> e) []) (txn_type t) (txn_quantity t)
    (txn_note t) (txn_created_at t)
    (default (txn_type t) (TRANSACTION_LABELS !! txn_type t)).

Definition search_transactions (name employee : option text)
  : conn (list HistoryRow) :=
  with_connection (
    rows ← select (λ db,
      order_by_desc (λ r, txn_created_at r.1.1)
        (filter (λ r, like_filter name (Some (item_name r.1.2))
                      ∧ like_filter employee (emp_name <$> r.2))
           (history_join db)));
    mret (history_row <$> rows)).

(** ** The command line ([cli.py])

    The parsed arguments of one invocation; [main] without its printing.
    Each operation it calls opens its own [with] block. *)



(** ** The web forms ([web.py]) *)

(** [str.isspace] on one character. *)
Definition py_isspace (c : N) : bool :=
  bool_decide (9 ≤ c ≤ 13 ∨ 28 ≤ c ≤ 32 ∨ c = 133 ∨ c = 160 ∨ c = 5760
               ∨ 8192 ≤ c ≤ 8202 ∨ c = 8232 ∨ c = 8233 ∨ c = 8239
               ∨ c = 8287 ∨ c = 12288)%N.

Fixpoint lstrip (s : text) : text :=
  match s with
  | c :: s' => if py_isspace c then lstrip s' else s
  | [] => []
  end.

(** [s.strip()] *)
Definition strip (s : text) : text :=
  reverse (lstrip (reverse (lstrip s))).

(** [a or b] on optional strings: [a] unless it is [None] or empty. *)
Definition py_or (a b : option text) : option text :=
  match a with
  | Some (_ :: _) => a
  | _ => b
  end.


(** [form.get(key, "").strip()] *)
Definition field (v : option text) : text := strip (default [] v).

(** [_handle_action]: an exception of the action becomes the error of the
    redirect; the handler itself never raises. *)
Definition _handle_action {A} (action : conn A) : conn (result A) := λ db,
  match action db with
  | (Ok a, db') => (Ok (Ok a), db')
  | (Raise e, db') => (Ok (Raise e), db')
  end.






(** [TRANSACTION_TYPES] of [cli.py] *)
Definition TRANSACTION_TYPES : gset text :=
  {[ str "stock_in"; str "issue"; str "return"; str "adjust" ]}.

(** ** What the schema enforces

    The constraints of [db.py]: the primary keys, the two UNIQUE
    constraints (NULL badges never collide) and the three foreign keys. *)

Definition schema_ok (db : database) : Prop :=
  NoDup (item_ids db)
  ∧ NoDup (employee_ids db)
  ∧ NoDup (item_key <$> items db)
  ∧ NoDup (omap emp_badge (employees db))
  ∧ Forall (λ t, txn_item_id t ∈ item_ids db) (transactions db)
  ∧ Forall (λ t, employee_ref_ok db (txn_employee_id t)) (transactions db)
  ∧ map_Forall (λ k _, k ∈ item_ids db) (stock_levels db).

Global Instance schema_ok_dec db : Decision (schema_ok db).
Proof. unfold schema_ok. apply _. Defined.

(** ** The ledger, replayed *)




(** ** Reachable states: any sequence of calls on a new database *)

Inductive operation :=
  | AddEmployee (name role : text) (badge : option text)
  | GetEmployee (name : text)
  | ListEmployees
  | AddItem (name size category : text) (min_stock : Z)
  | EnsureItem (name size category : text)
  | ListItems
  | LogTransaction (item_id quantity : Z) (ttype note : text)
      (employee_id : option Z) (now : text)
  | GetStatusRows
  | SearchTransactions (name employee : option text).

(** The file after the call, whether it returned or raised. *)
Definition run (op : operation) (db : database) : database :=
  match op with
  | AddEmployee name role badge => (add_employee name role badge db).2
  | GetEmployee name => (get_employee name db).2
  | ListEmployees => (list_employees db).2
  | AddItem name size category min_stock =>
      (add_item name size category min_stock db).2
  | EnsureItem name size category => (ensure_item name size category db).2
  | ListItems => (list_items db).2
  | LogTransaction item quantity ttype note employee now =>
      (log_transaction item quantity ttype note employee now db).2
  | GetStatusRows => (get_status_rows db).2
  | SearchTransactions name employee =>
      (search_transactions name employee db).2
  end.

Inductive reachable : database → Prop :=
  | reachable_init : reachable empty_db
  | reachable_step db op : reachable db → reachable (run op db).

(** [name] contains [part] as a substring. *)
Definition contains (name part : text) : Prop :=
  ∃ l r, name = l ++ part ++ r.

(** ** Notions used in the statements *)

(** The stock levels once [insert_stock_level_or_ignore] has returned. *)
Definition ensure_stock (item : Z) (m : gmap Z Z) : gmap Z Z :=
  match m !! item with
  | Some _ => m
  | None => <[item := 0]> m
  end.

(** [key a <= key b] under the BINARY collation: the order of [ORDER BY key]. *)
Definition key_le {A K} `{Lexico K} (key : A → K) (a b : A) : Prop :=
  ¬ lexico (key b) (key a).




(** No condition is added for a parameter that is [None] or empty. *)
Definition no_filter (param : option text) : Prop :=
  param = None ∨ param = Some [].

(** ** Example databases *)


(** Scenario A: the item with minimum stock 20, 50 stocked in, 2 issued
    to Ann. *)
Definition scenario_a : database :=
  run (LogTransaction 1 (- 2) (str "issue") [] (Some 1)
         (str "2024-01-01 10:00:02"))
    (run (LogTransaction 1 50 (str "stock_in") [] None
            (str "2024-01-01 10:00:01"))
       (run (AddEmployee (str "Ann") (str "guard") None)
          (run (AddItem (str "Shirt") (str "L") (str "Summer") 20)
             empty_db))).



(** ** The other routes of [web.py] *)



(** The form of [/add-employee]. *)
Record employee_form := mkEmployeeForm {
  eform_name : option text;
  eform_role : option text;
  eform_badge : option text
}.

Definition add_employee_route (f : employee_form) : conn (result Employee) :=
  _handle_action (
    add_employee (field (eform_name f)) (field (eform_role f))
      (py_or (eform_badge f) None)).

(** What [dashboard] hands to its template. *)
Record dashboard_page := mkDashboardPage {
  page_status_rows : list StatusRow;
  page_employees : list Employee;
  page_items : list ItemRow;
  page_recent_history : list HistoryRow
}.

Definition dashboard : conn dashboard_page :=
  status_rows ← get_status_rows;
  employees ← list_employees;
  items ← list_items;
  recent_history ← search_transactions None None;
  mret (mkDashboardPage status_rows employees items (take 10 recent_history)).

(** ** Printing a table ([cli.py]) *)

(** A value of a result row. *)
Inductive value :=
  | VInt (z : Z)
  | VText (s : text)
  | VNone.

(** [str(v)] *)
Definition py_str (v : value) : text :=
  match v with
  | VInt z => str (pretty z)
  | VText s => s
  | VNone => str "None"
  end.

(** [dict(row)]: the columns in the order of the SELECT. *)
Abbreviation row_dict := (list (text * value)).

(** [r[h]]; [None] stands for the KeyError. *)
Definition cell (r : row_dict) (h : text) : option value :=
  snd <$> (snd <$> list_find (λ kv, kv.1 = h) r).

(** [f"{s:<{width}}"] *)
Definition ljust (width : nat) (s : text) : text :=
  s ++ replicate (width - length s) 32%N.

(** [sep.join(parts)] *)
Fixpoint join (sep : text) (parts : list text) : text :=
  match parts with
  | [] => []
  | [p] => p
  | p :: rest => p ++ sep ++ join sep rest
  end.

(** "暂无记录" *)
Definition NO_RECORDS : text := [26242; 26080; 35760; 24405]%N.

(** [widths[h]], where
    [widths = {h: max(len(h), *(len(str(r[h])) for r in rows)) for h in headers}] *)
Definition widths (rows : list row_dict) (h : text) : option nat :=
  cells ← mapM (λ r, cell r h) rows;
  Some (max_list (length h :: (length ∘ py_str <$> cells))).

(** The lines [_print_table] prints; [None] when it raises KeyError, which
    happens in the computation of [widths], before anything is printed. *)
Definition _print_table (rows : list row_dict) : option (list text) :=
  match rows with
  | [] => Some [NO_RECORDS]
  | first :: _ =>
      let headers := first.*1 in
      header_cells ← mapM (λ h, w ← widths rows h; Some (ljust w h)) headers;
      let header_line := join (str "  ") header_cells in
      lines ← mapM (λ r,
                 cells ← mapM (λ h, w ← widths rows h;
                                    v ← cell r h;
                                    Some (ljust w (py_str v))) headers;
                 Some (join (str "  ") cells)) rows;
      Some (header_line :: replicate (length header_line) 45%N :: lines)
  end.

(** [dict(row)] for a row of [get_status_rows]. *)
Definition status_dict (r : StatusRow) : row_dict :=
  [(str "id", VInt (sr_id r));
   (str "name", VText (sr_name r));
   (str "size", VText (sr_size r));
   (str "category", VText (sr_category r));
   (str "quantity", from_option VInt VNone (sr_quantity r));
   (str "min_stock", VInt (sr_min_stock r));
   (str "alert", VText (sr_alert r))].

(** ** Notions used by the further properties *)

(** The rowids of one AUTOINCREMENT table: all positive, increasing along
    the table, and the sequence is not negative. *)
Definition rowids_ok (seq : Z) (ids : list Z) : Prop :=
  0 ≤ seq ∧ Forall (λ x, 1 ≤ x) ids ∧ StronglySorted Z.lt ids.

(** * Properties *)

(** ** Rowids *)

Lemma next_rowid_gt seq ids x : x ∈ ids → x < next_rowid seq ids.
Proof.
  unfold next_rowid. induction 1 as [x l|x y l _ IH]; simpl; lia.
Qed.

Lemma next_rowid_fresh seq ids : next_rowid seq ids ∉ ids.
Proof. intros H%(next_rowid_gt seq). lia. Qed.

(** ** What each operation computes *)

Lemma add_employee_spec name role badge db :
  add_employee name role badge db = upsert_employee name role badge db.
Proof.
  unfold add_employee, with_connection, upsert_employee.
  by repeat case_match.
Qed.

Lemma replace_item_ids i' l : item_id <$> replace_item i' l = item_id <$> l.
Proof.
  unfold replace_item. rewrite <-list_fmap_compose. apply list_fmap_ext.
  intros _ i _. simpl. by case_decide.
Qed.

Lemma replace_employee_ids e' l :
  emp_id <$> replace_employee e' l = emp_id <$> l.
Proof.
  unfold replace_employee. rewrite <-list_fmap_compose. apply list_fmap_ext.
  intros _ e _. simpl. by case_decide.
Qed.

Lemma add_item_spec name size category min_stock db :
  add_item name size category min_stock db =
  let rowid := next_rowid (seq_items db) (item_ids db) in
  match list_find (λ i, item_key i = (name, size, category)) (items db) with
  | Some (_, i) =>
      let i' := mkItem (item_id i) (item_name i) (item_size i)
                  (item_category i) min_stock in
      (Ok i',
       mkDatabase (employees db) (replace_item i' (items db))
         (ensure_stock (item_id i) (stock_levels db)) (transactions db)
         (seq_employees db) rowid (seq_transactions db))
  | None =>
      let i' := mkItem rowid name size category min_stock in
      (Ok i',
       mkDatabase (employees db) (items db ++ [i'])
         (ensure_stock rowid (stock_levels db)) (transactions db)
         (seq_employees db) rowid (seq_transactions db))
  end.
Proof.
  unfold add_item, with_connection, mbind, conn_bind, upsert_item,
    insert_stock_level_or_ignore, ensure_stock, mret, conn_ret.
  destruct (list_find _ _) as [[k i]|] eqn:Hfind; simpl.
  - apply list_find_Some in Hfind as (Hk & _ & _).
    destruct (stock_levels db !! item_id i); [done|].
    rewrite decide_True; [done|].
    unfold item_ids; simpl. rewrite replace_item_ids.
    apply list_elem_of_fmap. exists i. split; [done|].
    by eapply list_elem_of_lookup_2.
  - destruct (stock_levels db !! _); [done|].
    rewrite decide_True; [done|].
    unfold item_ids; simpl. rewrite fmap_app.
    apply elem_of_app. right. by left.
Qed.

Lemma log_transaction_spec item quantity ttype note employee now db :
  log_transaction item quantity ttype note employee now db =
  if decide (item ∈ item_ids db ∧ employee_ref_ok db employee) then
    let t := mkTransaction
               (next_rowid (seq_transactions db) (transaction_ids db))
               item employee ttype quantity note now in
    (Ok t,
     mkDatabase (employees db) (items db)
       (<[item := default 0 (stock_levels db !! item) + quantity]>
          (stock_levels db))
       (transactions db ++ [t])
       (seq_employees db) (seq_items db) (txn_id t))
  else (Raise IntegrityError, db).
Proof.
  unfold log_transaction, with_connection, mbind, conn_bind,
    insert_transaction, insert_stock_level_or_ignore, update_stock_level,
    mret, conn_ret.
  case_decide as Href; [|done]. simpl.
  destruct Href as [Hitem _].
  destruct (stock_levels db !! item) as [q|] eqn:Hq; simpl.
  - f_equal. f_equal. apply map_eq. intros j.
    destruct (decide (item = j)) as [<-|].
    + by rewrite lookup_alter_eq, lookup_insert_eq, Hq.
    + by rewrite lookup_alter_ne, lookup_insert_ne.
  - rewrite decide_True by done. simpl.
    f_equal. f_equal. apply map_eq. intros j.
    destruct (decide (item = j)) as [<-|].
    + by rewrite lookup_alter_eq, !lookup_insert_eq.
    + by rewrite lookup_alter_ne, !lookup_insert_ne.
Qed.

Lemma with_connection_rollback {A} (body : conn A) db e :
  (with_connection body db).1 = Raise e → (with_connection body db).2 = db.
Proof.
  unfold with_connection. destruct (body db) as [[a|e'] db']; simpl; [done|].
  by intros _.
Qed.



(** ** The ledger engine *)







(** ** The schema constraints are kept by every operation *)

Lemma NoDup_fmap_eq {A B} (f : A → B) (l : list A) x y :
  NoDup (f <$> l) → x ∈ l → y ∈ l → f x = f y → x = y.
Proof.
  induction l as [|a l IH]; simpl; [by intros _ ?%elem_of_nil|].
  intros [Ha Hl]%NoDup_cons [->|Hx]%elem_of_cons [->|Hy]%elem_of_cons Hxy;
    [done| | |by apply IH].
  - destruct Ha. rewrite Hxy. by apply list_elem_of_fmap_2.
  - destruct Ha. rewrite <-Hxy. by apply list_elem_of_fmap_2.
Qed.

Lemma replace_item_keys i' i l :
  NoDup (item_id <$> l) → i ∈ l →
  item_id i' = item_id i → item_key i' = item_key i →
  item_key <$> replace_item i' l = item_key <$> l.
Proof.
  intros Hnd Hi Hid Hkey. unfold replace_item.
  rewrite <-list_fmap_compose. apply list_fmap_ext. intros k r Hr. simpl.
  case_decide as Heq; [|done].
  apply list_elem_of_lookup_2 in Hr.
  rewrite Hkey. f_equal. symmetry.
  eapply (NoDup_fmap_eq item_id); eauto. congruence.
Qed.

Lemma replace_employee_badges e' e l :
  NoDup (emp_id <$> l) → e ∈ l →
  emp_id e' = emp_id e → emp_badge e' = emp_badge e →
  omap emp_badge (replace_employee e' l) = omap emp_badge l.
Proof.
  intros Hnd He Hid Hbadge. unfold replace_employee.
  assert (∀ r, r ∈ l →
    emp_badge (if decide (emp_id r = emp_id e') then e' else r)
    = emp_badge r) as Hsame.
  { intros r Hr. case_decide as Heq; [|done]. rewrite Hbadge. f_equal.
    symmetry. eapply (NoDup_fmap_eq emp_id); eauto. congruence. }
  clear Hnd He. induction l as [|r l IH]; [done|]. csimpl.
  rewrite Hsame by left. rewrite IH; [done|].
  intros r' Hr'. apply Hsame. by right.
Qed.

Lemma ensure_stock_fk item (m : gmap Z Z) (ids ids' : list Z) :
  item ∈ ids' → ids ⊆ ids' →
  map_Forall (λ k _, k ∈ ids) m →
  map_Forall (λ k _, k ∈ ids') (ensure_stock item m).
Proof.
  intros Hitem Hsub Hm. unfold ensure_stock.
  destruct (m !! item) eqn:Hlook.
  - intros k q Hk. apply Hsub. by eapply Hm.
  - apply map_Forall_insert; [done|]. split; [done|].
    intros k q Hk. apply Hsub. by eapply Hm.
Qed.

Lemma employee_ref_ok_mono db db' employee :
  employee_ids db ⊆ employee_ids db' →
  employee_ref_ok db employee → employee_ref_ok db' employee.
Proof. destruct employee; simpl; [|done]. intros Hsub ?. by apply Hsub. Qed.

Lemma NoDup_snoc_fresh {A} (l : list A) x : NoDup l → x ∉ l → NoDup (l ++ [x]).
Proof.
  intros Hl Hx. apply NoDup_app. split_and!; [done| |apply NoDup_singleton].
  intros y Hy ->%list_elem_of_singleton. done.
Qed.

Lemma schema_ok_add_employee name role badge db :
  schema_ok db → schema_ok (add_employee name role badge db).2.
Proof.
  intros (Hi & He & Hk & Hb & Hti & Hte & Hs).
  rewrite add_employee_spec. unfold upsert_employee.
  destruct (badge ≫= _) as [[k e]|] eqn:Hfind; simpl.
  - destruct badge as [b|]; [|done]. simpl in Hfind.
    apply list_find_Some in Hfind as (Hk' & Hbadge & _).
    apply list_elem_of_lookup_2 in Hk'.
    unfold schema_ok, employee_ids, item_ids; simpl.
    rewrite replace_employee_ids.
    split_and!; try done.
    + by erewrite replace_employee_badges.
    + eapply Forall_impl; [exact Hte|]. intros t. simpl.
      apply employee_ref_ok_mono. unfold employee_ids; simpl.
      by rewrite replace_employee_ids.
  - unfold schema_ok, employee_ids, item_ids; simpl.
    rewrite fmap_app, omap_app.
    split_and!; try done.
    + apply NoDup_snoc_fresh; [done|]. apply next_rowid_fresh.
    + simpl. destruct badge as [b|]; simpl; [|by rewrite app_nil_r].
      apply NoDup_snoc_fresh; [done|].
      intros (e & He' & Hbe)%list_elem_of_omap.
      simpl in Hfind. apply list_find_None in Hfind.
      rewrite Forall_forall in Hfind. by apply (Hfind e).
    + eapply Forall_impl; [exact Hte|]. intros t. simpl.
      apply employee_ref_ok_mono. unfold employee_ids; simpl.
      rewrite fmap_app. intros x Hx. apply elem_of_app. by left.
Qed.

Lemma schema_ok_add_item name size category min_stock db :
  schema_ok db → schema_ok (add_item name size category min_stock db).2.
Proof.
  intros (Hi & He & Hk & Hb & Hti & Hte & Hs).
  rewrite add_item_spec.
  destruct (list_find _ _) as [[k i]|] eqn:Hfind; simpl.
  - apply list_find_Some in Hfind as (Hk' & Hkey & _).
    apply list_elem_of_lookup_2 in Hk'.
    unfold schema_ok, employee_ids, item_ids; simpl.
    rewrite replace_item_ids.
    split_and!; try done.
    + by erewrite replace_item_keys.
    + eapply ensure_stock_fk; [|done|exact Hs].
      by apply list_elem_of_fmap_2.
  - unfold schema_ok, employee_ids, item_ids; simpl.
    rewrite !fmap_app.
    split_and!; try done.
    + apply NoDup_snoc_fresh; [done|]. apply next_rowid_fresh.
    + apply NoDup_snoc_fresh; [done|]. simpl.
      intros (i & Hkey & Hin)%list_elem_of_fmap.
      apply list_find_None in Hfind. rewrite Forall_forall in Hfind.
      by apply (Hfind i).
    + eapply Forall_impl; [exact Hti|]. intros t. simpl.
      intros Hx. apply elem_of_app. by left.
    + eapply ensure_stock_fk; [| |exact Hs]; simpl.
      * apply elem_of_app. right. by left.
      * intros x Hx. apply elem_of_app. by left.
Qed.

Lemma schema_ok_log_transaction item quantity ttype note employee now db :
  schema_ok db →
  schema_ok (log_transaction item quantity ttype note employee now db).2.
Proof.
  intros Hok. rewrite log_transaction_spec. case_decide as Href; [|done].
  destruct Hok as (Hi & He & Hk & Hb & Hti & Hte & Hs).
  destruct Href as [Hitem Hemp].
  unfold schema_ok, employee_ids, item_ids; simpl.
  split_and!; try done.
  - apply Forall_app. split; [done|]. by apply Forall_singleton.
  - apply Forall_app. split; [done|]. by apply Forall_singleton.
  - apply map_Forall_insert_2; [done|]. done.
Qed.

(** The queries write nothing. *)
Lemma queries_read_only db :
  (∀ name, (get_employee name db).2 = db)
  ∧ (∀ name size category, (ensure_item name size category db).2 = db)
  ∧ (list_employees db).2 = db
  ∧ (list_items db).2 = db
  ∧ (get_status_rows db).2 = db
  ∧ (∀ name employee, (search_transactions name employee db).2 = db).
Proof.
  unfold get_employee, ensure_item, list_employees, list_items,
    get_status_rows, search_transactions, with_connection, mbind, conn_bind,
    select, mret, conn_ret, raise.
  split_and!; intros; simpl; try done.
  - by destruct (list_find _ _) as [[??]|].
  - by destruct (list_find _ _) as [[??]|].
Qed.

Lemma schema_ok_run op db : schema_ok db → schema_ok (run op db).
Proof.
  intros Hok. destruct (queries_read_only db) as (Q1 & Q2 & Q3 & Q4 & Q5 & Q6).
  destruct op; simpl; rewrite ?Q1, ?Q2, ?Q3, ?Q4, ?Q5, ?Q6; try done.
  - by apply schema_ok_add_employee.
  - by apply schema_ok_add_item.
  - by apply schema_ok_log_transaction.
Qed.

Lemma schema_ok_empty : schema_ok empty_db.
Proof.
  unfold schema_ok; simpl. split_and!; try constructor.
  apply map_Forall_empty.
Qed.

Lemma reachable_schema_ok db : reachable db → schema_ok db.
Proof.
  induction 1; [apply schema_ok_empty|by apply schema_ok_run].
Qed.

(** ** The stock levels are the replayed ledger *)

Lemma filter_none {A} (P : A → Prop) `{∀ x, Decision (P x)} (l : list A) :
  Forall (λ x, ¬ P x) l → filter P l = [].
Proof. induction 1; [done|]. by rewrite filter_cons_False. Qed.







Lemma elem_of_order_by {A K} `{Lexico K, ∀ x y : K, Decision (lexico x y)}
    (key : A → K) (l : list A) x :
  x ∈ order_by key l ↔ x ∈ l.
Proof. unfold order_by. by rewrite merge_sort_Permutation. Qed.



(** ** The catalog *)

Lemma filter_unique {A B} `{EqDecision B} (f : A → B) (l : list A) x :
  NoDup (f <$> l) → x ∈ l → filter (λ y, f y = f x) l = [x].
Proof.
  induction l as [|a l IH]; csimpl; [by intros _ ?%elem_of_nil|].
  intros [Ha Hl]%NoDup_cons [->|Hx]%elem_of_cons.
  - rewrite filter_cons_True by done. f_equal. apply filter_none.
    apply Forall_forall. intros y Hy Heq. apply Ha. rewrite <-Heq.
    by apply list_elem_of_fmap_2.
  - rewrite filter_cons_False; [by apply IH|].
    intros Heq. apply Ha. rewrite Heq. by apply list_elem_of_fmap_2.
Qed.








Lemma get_employee_spec name db :
  get_employee name db =
  match list_find (λ e, emp_name e = name) (employees db) with
  | Some (_, e) => (Ok e, db)
  | None => (Raise (ValueError (EMPLOYEE_NOT_FOUND ++ name)), db)
  end.
Proof.
  unfold get_employee, with_connection, mbind, conn_bind, select, mret,
    conn_ret, raise.
  by destruct (list_find _ _) as [[??]|].
Qed.

Lemma ensure_item_spec name size category db :
  ensure_item name size category db =
  match list_find (λ i, item_key i = (name, size, category)) (items db) with
  | Some (_, i) => (Ok i, db)
  | None =>
      (Raise (ValueError (ITEM_NOT_FOUND ++ name ++ [32%N] ++ size
                            ++ [32%N] ++ category)), db)
  end.
Proof.
  unfold ensure_item, with_connection, mbind, conn_bind, select, mret,
    conn_ret, raise.
  by destruct (list_find _ _) as [[??]|].
Qed.

(** C10: [add_employee] without a badge always inserts.  Whatever the
    table holds, also an employee of the same name and role, two calls
    for one name without a badge append two rows with two new, different
    identifiers.  [get_employee] for that name then returns a single row
    of that name, never the second of the two, and the first of them
    when nobody had the name before. *)
Theorem add_employee_without_badge name role role' db :
  ∃ e1 db1 e2 db2,
    add_employee name role None db = (Ok e1, db1)
    ∧ add_employee name role' None db1 = (Ok e2, db2)
    ∧ employees db1 = employees db ++ [e1]
    ∧ employees db2 = employees db ++ [e1; e2]
    ∧ emp_name e1 = name ∧ emp_name e2 = name
    ∧ (emp_id e1 ∉ employee_ids db)
    ∧ (emp_id e2 ∉ employee_ids db)
    ∧ emp_id e1 ≠ emp_id e2
    ∧ ∃ e,
        get_employee name db2 = (Ok e, db2)
        ∧ e ∈ employees db2
        ∧ emp_name e = name
        ∧ emp_id e ≠ emp_id e2
        ∧ ((∀ x, x ∈ employees db → emp_name x ≠ name) → e = e1).
Proof.
  set (id1 := next_rowid (seq_employees db) (employee_ids db)).
  set (e1 := mkEmployee id1 name role None).
  set (db1 := mkDatabase (employees db ++ [e1]) (items db) (stock_levels db)
                (transactions db) id1 (seq_items db) (seq_transactions db)).
  set (id2 := next_rowid id1 (employee_ids db1)).
  set (e2 := mkEmployee id2 name role' None).
  set (db2 := mkDatabase (employees db1 ++ [e2]) (items db) (stock_levels db)
                (transactions db) id2 (seq_items db) (seq_transactions db)).
  assert (add_employee name role None db = (Ok e1, db1)) as E1
    by (by rewrite add_employee_spec).
  assert (add_employee name role' None db1 = (Ok e2, db2)) as E2
    by (by rewrite add_employee_spec).
  assert (id1 ∉ employee_ids db) as Hfresh1 by apply next_rowid_fresh.
  assert (employee_ids db1 = employee_ids db ++ [id1]) as Hids1.
  { unfold employee_ids; simpl. by rewrite fmap_app. }
  assert (∀ x, x ∈ employee_ids db1 → x < id2) as Hlt2.
  { intros x. apply next_rowid_gt. }
  assert (id2 ∉ employee_ids db) as Hfresh2.
  { intros Hin. specialize (Hlt2 id2). rewrite Hids1 in Hlt2.
    assert (id2 < id2); [|lia]. apply Hlt2, elem_of_app. by left. }
  assert (id1 ≠ id2) as Hne.
  { intros Heq. specialize (Hlt2 id1). rewrite Hids1 in Hlt2.
    assert (id1 < id2); [|lia]. apply Hlt2, elem_of_app. right. by left. }
  exists e1, db1, e2, db2.
  split_and!; try done.
  { simpl. by rewrite <-app_assoc. }
  rewrite get_employee_spec.
  destruct (list_find _ (employees db2)) as [[k e]|] eqn:Hfind.
  - exists e. split; [done|].
    pose proof Hfind as (Hk & Hname & _)%list_find_Some.
    apply list_elem_of_lookup_2 in Hk.
    split; [done|]. split; [done|].
    simpl in Hfind. rewrite <-app_assoc in Hfind. simpl in Hfind.
    apply list_find_app_Some in Hfind as [Hold|(_ & _ & Hnew)].
    + apply list_find_Some in Hold as (Hk' & _ & _).
      apply list_elem_of_lookup_2 in Hk'.
      split.
      * intros Heq. apply Hfresh2. simpl in Heq. rewrite <-Heq.
        by apply list_elem_of_fmap_2.
      * intros Hnobody. by destruct (Hnobody e Hk').
    + simpl in Hnew. rewrite decide_True in Hnew by done.
      injection Hnew as _ <-. done.
  - apply list_find_None in Hfind. rewrite Forall_forall in Hfind.
    destruct (Hfind e1); [|done]. simpl.
    apply elem_of_app. left. apply elem_of_app. right. by left.
Qed.

(** ** The adapters *)









(** ** ORDER BY *)

Section order_by.
Context {A K : Type} `{Lexico K} `{!StrictOrder (@lexico K _)}
  `{!Trichotomy (@lexico K _)} `{∀ x y : K, Decision (lexico x y)}
  (key : A → K).

Local Instance key_le_total : Total (key_le key).
Proof.
  intros a b. unfold key_le.
  destruct (trichotomy lexico (key a) (key b)) as [Hlt|[Heq|Hgt]].
  - left. intros Hgt. by apply (strict_anti_symm (R:=lexico) (key a) (key b)).
  - left. rewrite Heq. apply irreflexivity, _.
  - right. intros Hlt. by apply (strict_anti_symm (R:=lexico) (key a) (key b)).
Qed.

Local Instance key_le_trans : Transitive (key_le key).
Proof.
  intros a b c Hab Hbc Hca. unfold key_le in *.
  destruct (trichotomy lexico (key a) (key b)) as [Hlt|[Heq|Hgt]].
  - apply Hbc. by trans (key a).
  - apply Hbc. by rewrite <-Heq.
  - done.
Qed.

Local Instance key_ge_total : Total (flip (key_le key)).
Proof. intros a b. destruct (total (key_le key) a b); [by right|by left]. Qed.

Local Instance key_ge_trans : Transitive (flip (key_le key)).
Proof. intros a b c Hab Hbc. unfold flip in *. by trans b. Qed.

Lemma order_by_sorted l : StronglySorted (key_le key) (order_by key l).
Proof. apply (StronglySorted_merge_sort (key_le key)). Qed.

Lemma order_by_desc_sorted l :
  StronglySorted (flip (key_le key)) (order_by_desc key l).
Proof. apply (StronglySorted_merge_sort (flip (key_le key))). Qed.

Lemma order_by_perm l : order_by key l ≡ₚ l.
Proof. apply merge_sort_Permutation. Qed.

Lemma order_by_desc_perm l : order_by_desc key l ≡ₚ l.
Proof. apply merge_sort_Permutation. Qed.
End order_by.

(** ** The status report *)

(** What [get_status_rows] does on every database: it writes nothing and
    returns one row per item, sorted by (name, size); a row carries the
    stock level of its item, NULL when the item has none, and the alert
    exactly when that quantity is a number below the minimum stock. *)
Lemma get_status_rows_spec db :
  ∃ rows,
    get_status_rows db = (Ok rows, db)
    ∧ rows ≡ₚ status_row db <$> items db
    ∧ StronglySorted (key_le (λ r, (sr_name r, sr_size r))) rows
    ∧ ∀ r, r ∈ rows →
        sr_quantity r = stock_levels db !! sr_id r
        ∧ (sr_alert r = LOW_STOCK_ALERT ↔
           ∃ q, sr_quantity r = Some q ∧ q < sr_min_stock r).
Proof.
  eexists. split; [reflexivity|]. split_and!.
  - apply order_by_perm.
  - apply order_by_sorted; apply _.
  - intros r (i & -> & Hi)%elem_of_order_by%list_elem_of_fmap.
    unfold status_row; simpl. split; [done|].
    destruct (stock_levels db !! item_id i) as [q|]; simpl.
    + case_bool_decide; split; try done.
      * intros _. by exists q.
      * intros (q' & [= <-] & Hlt). done.
    + split; [done|]. by intros (q' & [=] & _).
Qed.


(** ** The history *)

Lemma like_percent p s :
  like (37%N :: p) s
  = like p s || match s with
                | [] => false
                | _ :: s' => like (37%N :: p) s'
                end.
Proof. by destruct s. Qed.

Lemma like_percent_end s : like [37%N] s = true.
Proof.
  induction s as [|c s IH]; [done|].
  rewrite like_percent, IH. apply orb_true_r.
Qed.

Lemma like_percent_skip l p s :
  like (37%N :: p) s = true → like (37%N :: p) (l ++ s) = true.
Proof.
  intros Hs. induction l as [|c l IH]; [done|].
  change ((c :: l) ++ s) with (c :: (l ++ s)).
  rewrite like_percent, IH. apply orb_true_r.
Qed.

Lemma like_literal n r : like (n ++ [37%N]) (n ++ r) = true.
Proof.
  induction n as [|c n IH]; [apply like_percent_end|].
  destruct (decide (c = 37%N)) as [->|Hc].
  - change (like (37%N :: (n ++ [37%N])) (37%N :: (n ++ r)) = true).
    rewrite like_percent, like_percent, IH. simpl. apply orb_true_r.
  - simpl. rewrite decide_False by done. rewrite IH.
    rewrite (bool_decide_eq_true_2 (ascii_lower c = ascii_lower c)) by done.
    by rewrite orb_true_r.
Qed.

(** A name that contains the filter matches the pattern made from it. *)
Lemma contains_like name part :
  contains name part → like (contains_pattern part) name = true.
Proof.
  intros (l & r & ->). unfold contains_pattern.
  apply like_percent_skip. rewrite like_percent.
  change (like ([] ++ part ++ [37%N]) (part ++ r)) with
    (like (part ++ [37%N]) (part ++ r)).
  by rewrite like_literal.
Qed.

Lemma elem_of_left_join {A} (l : list A) : ∃ e, e ∈ left_join l.
Proof.
  destruct l as [|a l]; [exists None|exists (Some a)]; simpl; by left.
Qed.

Lemma elem_of_history_join db t i e :
  (t, i, e) ∈ history_join db ↔
  t ∈ transactions db
  ∧ i ∈ items db ∧ item_id i = txn_item_id t
  ∧ e ∈ left_join (filter (λ e, Some (emp_id e) = txn_employee_id t)
                     (employees db)).
Proof.
  unfold history_join. rewrite list_elem_of_bind. split.
  - intros (t' & (i' & (e' & Hin & He)%list_elem_of_bind & Hi)%list_elem_of_bind & Ht).
    apply list_elem_of_singleton in Hin as [= <- <- <-].
    apply list_elem_of_filter in Hi as [Hid Hi]. done.
  - intros (Ht & Hi & Hid & He). exists t. split; [|done].
    apply list_elem_of_bind. exists i. split; [|by apply list_elem_of_filter].
    apply list_elem_of_bind. exists e. split; [|done].
    by apply list_elem_of_singleton.
Qed.

Lemma left_join_unique {A B} `{EqDecision B} (f : A → B) (l : list A)
    (x : option B) :
  NoDup (f <$> l) →
  match x with Some b => b ∈ f <$> l | None => True end →
  ∃ e, left_join (filter (λ a, Some (f a) = x) l) = [e].
Proof.
  intros Hnd Hx. destruct x as [b|].
  - apply list_elem_of_fmap in Hx as (a & -> & Ha).
    exists (Some a).
    rewrite (list_filter_iff _ (λ y, f y = f a)).
    + by rewrite (filter_unique f).
    + intros y. split; [by intros [= ->]|by intros ->].
  - exists None. by rewrite filter_none by by apply Forall_forall.
Qed.

Lemma history_join_transactions db :
  schema_ok db → (λ r, r.1.1) <$> history_join db = transactions db.
Proof.
  intros (Hi & He & _ & _ & Hti & Hte & _). unfold history_join.
  induction (transactions db) as [|t l IH]; [done|].
  apply Forall_cons in Hti as [Ht Hti]. apply Forall_cons in Hte as [Ht' Hte].
  rewrite bind_cons, fmap_app, IH by done.
  apply list_elem_of_fmap in Ht as (i & Hid & Hin).
  rewrite (list_filter_iff _ (λ y, item_id y = item_id i))
    by (intros y; by rewrite Hid).
  rewrite (filter_unique item_id) by done.
  destruct (left_join_unique emp_id (employees db) (txn_employee_id t) He)
    as [e Hjoin].
  { by destruct (txn_employee_id t). }
  simpl. rewrite Hjoin. done.
Qed.

Lemma filter_all {A} (P : A → Prop) `{∀ x, Decision (P x)} (l : list A) :
  Forall P l → filter P l = l.
Proof. induction 1; [done|]. rewrite filter_cons_True by done. by f_equal. Qed.

Lemma like_filter_no_filter param column :
  no_filter param → like_filter param column = true.
Proof. by intros [->| ->]. Qed.

Lemma elem_of_search_rows name employee db r :
  r ∈ history_row <$>
        order_by_desc (λ r, txn_created_at r.1.1)
          (filter (λ r, like_filter name (Some (item_name r.1.2))
                        ∧ like_filter employee (emp_name <$> r.2))
             (history_join db)) ↔
  ∃ t i e,
    r = history_row (t, i, e)
    ∧ (t, i, e) ∈ history_join db
    ∧ like_filter name (Some (item_name i)) = true
    ∧ like_filter employee (emp_name <$> e) = true.
Proof.
  rewrite list_elem_of_fmap. unfold order_by_desc. split.
  - intros ([[t i] e] & -> & Hin). rewrite merge_sort_Permutation in Hin.
    apply list_elem_of_filter in Hin as [[H1 H2] Hin]. simpl in *.
    exists t, i, e. split_and!; try done; by apply Is_true_true.
  - intros (t & i & e & -> & Hin & H1 & H2). exists (t, i, e).
    split; [done|]. rewrite merge_sort_Permutation.
    apply list_elem_of_filter. simpl. by rewrite H1, H2.
Qed.

(** C8 fails on the code: with the name filter "S_irt" the history of the
    "Shirt" is returned, and "Shirt" does not contain "S_irt". *)
Lemma like_is_not_substring :
  ∃ rows r,
    search_transactions (Some (str "S_irt")) None scenario_a
    = (Ok rows, scenario_a)
    ∧ r ∈ rows
    ∧ h_name r = str "Shirt"
    ∧ ¬ contains (h_name r) (str "S_irt").
Proof.
  eexists _, _. split; [by vm_compute|]. split; [by left|]. split; [done|].
  intros (l & r & Heq). simpl in Heq.
  destruct l as [|c l].
  - vm_compute in Heq. congruence.
  - apply (f_equal length) in Heq. rewrite !length_app in Heq.
    cbn in Heq. lia.
Qed.

(** C8 as the code has it.  [search_transactions] writes nothing and
    returns its rows by creation timestamp, latest first.  With a name
    filter, the item name of every returned row matches the LIKE pattern
    [%filter%] ([%] and [_] of the filter are wildcards and ASCII letters
    match in either case), and, when no employee filter is given, every
    transaction whose item name matches the pattern is returned: in
    particular every transaction whose item name contains the filter.
    With no filter at all, the rows are the transactions, each once. *)
Theorem search_transactions_ordered_and_filtered name employee db :
  schema_ok db →
  ∃ rows,
    search_transactions name employee db = (Ok rows, db)
    ∧ StronglySorted (λ a b, text_le (h_created_at b) (h_created_at a)) rows
    ∧ (∀ c rest r, name = Some (c :: rest) → r ∈ rows →
         like (contains_pattern (c :: rest)) (h_name r) = true)
    ∧ (∀ c rest t i, name = Some (c :: rest) → no_filter employee →
         t ∈ transactions db → i ∈ items db → item_id i = txn_item_id t →
         like (contains_pattern (c :: rest)) (item_name i) = true →
         ∃ r, r ∈ rows ∧ h_id r = txn_id t ∧ h_name r = item_name i)
    ∧ (∀ n t i, name = Some n → no_filter employee →
         t ∈ transactions db → i ∈ items db → item_id i = txn_item_id t →
         contains (item_name i) n →
         ∃ r, r ∈ rows ∧ h_id r = txn_id t ∧ h_name r = item_name i)
    ∧ (no_filter name → no_filter employee →
         h_id <$> rows ≡ₚ txn_id <$> transactions db).
Proof.
  intros Hok. eexists. split; [reflexivity|].
  assert (∀ t i, no_filter employee →
    t ∈ transactions db → i ∈ items db → item_id i = txn_item_id t →
    like_filter name (Some (item_name i)) = true →
    ∃ r, r ∈ history_row <$>
           order_by_desc (λ r, txn_created_at r.1.1)
             (filter (λ r, like_filter name (Some (item_name r.1.2))
                           ∧ like_filter employee (emp_name <$> r.2))
                (history_join db))
         ∧ h_id r = txn_id t ∧ h_name r = item_name i) as Hcomplete.
  { intros t i Hemp Ht Hi Hid Hlike.
    destruct (elem_of_left_join
                (filter (λ e, Some (emp_id e) = txn_employee_id t)
                   (employees db))) as [e He].
    exists (history_row (t, i, e)). split; [|done].
    apply elem_of_search_rows. exists t, i, e. split_and!; try done.
    - by apply elem_of_history_join.
    - by apply like_filter_no_filter. }
  split_and!.
  - eapply StronglySorted_fmap; [|apply order_by_desc_sorted; apply _].
    by intros [[t i] e] [[t' i'] e'].
  - intros c rest r -> (t & i & e & -> & _ & Hlike & _)%elem_of_search_rows.
    done.
  - intros c rest t i -> Hemp Ht Hi Hid Hlike. by apply Hcomplete.
  - intros n t i -> Hemp Ht Hi Hid Hcontains. apply Hcomplete; try done.
    destruct n as [|c rest]; [done|]. unfold like_filter.
    by apply contains_like.
  - intros Hname Hemp.
    rewrite <-(history_join_transactions db Hok), <-!list_fmap_compose.
    unfold order_by_desc. rewrite merge_sort_Permutation.
    rewrite filter_all.
    + erewrite list_fmap_ext; [reflexivity|]. by intros k [[t i] e] _.
    + apply Forall_forall. intros [[t i] e] _. simpl.
      by rewrite !like_filter_no_filter.
Qed.

Lemma search_transactions_ordered_and_filtered_witness :
  ∃ rows,
    search_transactions (Some (str "Shirt")) None scenario_a
    = (Ok rows, scenario_a)
    ∧ StronglySorted (λ a b, text_le (h_created_at b) (h_created_at a)) rows
    ∧ h_id <$> rows = [2; 1].
Proof.
  destruct (search_transactions_ordered_and_filtered (Some (str "Shirt"))
              None scenario_a) as (rows & Heq & Hsorted & _).
  - compute_done.
  - exists rows. split; [done|]. split; [done|].
    assert (search_transactions (Some (str "Shirt")) None scenario_a
            = (Ok rows, scenario_a)) as Heq' by done.
    vm_compute in Heq'. injection Heq' as <-. by vm_compute.
Defined.

(** * Further properties of the operations *)

(** ** What no operation does *)

(** X1: the ledger is append-only.  After any call of any operation the
    transactions recorded before it are still there, unchanged and in
    the same order; at most one row has been added, at the end, and its
    identifier is larger than every earlier one. *)
Theorem ledger_append_only op db :
  transactions (run op db) = transactions db
  ∨ ∃ t,
      transactions (run op db) = transactions db ++ [t]
      ∧ Forall (λ t', txn_id t' < txn_id t) (transactions db).
Proof.
  destruct (queries_read_only db) as (Q1 & Q2 & Q3 & Q4 & Q5 & Q6).
  destruct op; simpl; rewrite ?Q1, ?Q2, ?Q3, ?Q4, ?Q5, ?Q6; try by left.
  - left. rewrite add_employee_spec. unfold upsert_employee.
    by destruct (badge ≫= _) as [[??]|].
  - left. rewrite add_item_spec. by destruct (list_find _ _) as [[??]|].
  - rewrite log_transaction_spec. case_decide; [|by left].
    right. eexists. split; [done|]. simpl.
    apply Forall_forall. intros t' Ht'. apply next_rowid_gt.
    by apply list_elem_of_fmap_2.
Qed.

(** X2: nothing is ever deleted or renamed in the catalog.  On a database
    that satisfies its schema, after any call of any operation the items
    of before are still there in the same order with the same identifier,
    name, size and category (only a minimum stock can have changed), and
    the employees of before with the same identifier and badge; an item
    that had a stock level still has one. *)
Theorem catalog_identities_stay op db :
  schema_ok db →
  (λ i, (item_id i, item_key i)) <$> items db
    `prefix_of` (λ i, (item_id i, item_key i)) <$> items (run op db)
  ∧ (λ e, (emp_id e, emp_badge e)) <$> employees db
      `prefix_of` (λ e, (emp_id e, emp_badge e)) <$> employees (run op db)
  ∧ ∀ k, is_Some (stock_levels db !! k) →
         is_Some (stock_levels (run op db) !! k).
Proof.
  intros (Hi & He & Hk & Hb & Hti & Hte & Hs).
  destruct (queries_read_only db) as (Q1 & Q2 & Q3 & Q4 & Q5 & Q6).
  destruct op; simpl; rewrite ?Q1, ?Q2, ?Q3, ?Q4, ?Q5, ?Q6; try done.
  - rewrite add_employee_spec. unfold upsert_employee.
    destruct (badge ≫= _) as [[k e]|] eqn:Hfind; simpl.
    + split; [done|]. split; [|done].
      destruct badge as [b|]; [|done]. simpl in Hfind.
      apply list_find_Some in Hfind as (Hk' & Hbadge & _).
      apply list_elem_of_lookup_2 in Hk'.
      unfold replace_employee. rewrite <-list_fmap_compose.
      erewrite list_fmap_ext; [done|]. intros j r Hr. simpl.
      case_decide as Heq; [|done]. simpl in *.
      apply list_elem_of_lookup_2 in Hr.
      assert (r = e) as -> by (by eapply (NoDup_fmap_eq emp_id)).
      done.
    + split; [done|]. split; [|done].
      rewrite fmap_app. by apply prefix_app_r.
  - rewrite add_item_spec.
    destruct (list_find _ _) as [[k i]|] eqn:Hfind; simpl.
    + apply list_find_Some in Hfind as (Hk' & Hkey & _).
      apply list_elem_of_lookup_2 in Hk'.
      split_and!; [|done|].
      * unfold replace_item. rewrite <-list_fmap_compose.
        erewrite list_fmap_ext; [done|]. intros j r Hr. simpl.
        case_decide as Heq; [|done]. simpl in *.
        apply list_elem_of_lookup_2 in Hr.
        assert (r = i) as -> by (by eapply (NoDup_fmap_eq item_id)).
        done.
      * intros j Hj. unfold ensure_stock.
        destruct (stock_levels db !! item_id i); [done|].
        destruct (decide (item_id i = j)) as [->|];
          [by rewrite lookup_insert_eq|by rewrite lookup_insert_ne].
    + split_and!; [|done|].
      * rewrite fmap_app. by apply prefix_app_r.
      * intros j Hj. unfold ensure_stock.
        destruct (stock_levels db !! next_rowid _ _); [done|].
        destruct (decide (next_rowid (seq_items db) (item_ids db) = j))
          as [->|]; [by rewrite lookup_insert_eq|by rewrite lookup_insert_ne].
  - rewrite log_transaction_spec. case_decide; [|done]. simpl.
    split_and!; [done|done|]. intros j Hj.
    match goal with
    | |- is_Some (<[?i := _]> _ !! _) => destruct (decide (i = j)) as [->|]
    end; [by rewrite lookup_insert_eq|by rewrite lookup_insert_ne].
Qed.

Lemma catalog_identities_stay_witness :
  (λ i, (item_id i, item_key i)) <$> items scenario_a
    `prefix_of`
    (λ i, (item_id i, item_key i)) <$>
      items (run (AddItem (str "Shirt") (str "L") (str "Summer") 5)
               scenario_a).
Proof.
  apply (catalog_identities_stay
           (AddItem (str "Shirt") (str "L") (str "Summer") 5) scenario_a).
  compute_done.
Defined.

(** ** The states that can be reached *)

Lemma next_rowid_seq seq ids : seq < next_rowid seq ids.
Proof. unfold next_rowid. induction ids as [|x l IH]; simpl; lia. Qed.

Lemma rowids_ok_seq seq ids :
  rowids_ok seq ids → rowids_ok (next_rowid seq ids) ids.
Proof.
  intros (Hseq & Hpos & Hsorted). split; [|done].
  pose proof (next_rowid_seq seq ids). lia.
Qed.

Lemma rowids_ok_snoc seq ids :
  rowids_ok seq ids →
  rowids_ok (next_rowid seq ids) (ids ++ [next_rowid seq ids]).
Proof.
  intros (Hseq & Hpos & Hsorted).
  pose proof (next_rowid_seq seq ids) as Hlt.
  split_and!; [lia| |].
  - apply Forall_app. split; [done|]. apply Forall_singleton. lia.
  - apply StronglySorted_app_2; [|done|repeat constructor].
    intros x y Hx ->%list_elem_of_singleton. by apply next_rowid_gt.
Qed.

Lemma rowids_ok_run op db :
  rowids_ok (seq_items db) (item_ids db)
  ∧ rowids_ok (seq_employees db) (employee_ids db)
  ∧ rowids_ok (seq_transactions db) (transaction_ids db) →
  rowids_ok (seq_items (run op db)) (item_ids (run op db))
  ∧ rowids_ok (seq_employees (run op db)) (employee_ids (run op db))
  ∧ rowids_ok (seq_transactions (run op db)) (transaction_ids (run op db)).
Proof.
  intros (Hi & He & Ht).
  destruct (queries_read_only db) as (Q1 & Q2 & Q3 & Q4 & Q5 & Q6).
  destruct op; simpl; rewrite ?Q1, ?Q2, ?Q3, ?Q4, ?Q5, ?Q6; try done.
  - rewrite add_employee_spec. unfold upsert_employee.
    destruct (badge ≫= _) as [[k e]|]; unfold employee_ids; simpl.
    + rewrite replace_employee_ids. split_and!; try done.
      by apply rowids_ok_seq.
    + rewrite fmap_app. split_and!; try done. by apply rowids_ok_snoc.
  - rewrite add_item_spec.
    destruct (list_find _ _) as [[k i]|]; unfold item_ids; simpl.
    + rewrite replace_item_ids. split_and!; try done.
      by apply rowids_ok_seq.
    + rewrite fmap_app. split_and!; try done. by apply rowids_ok_snoc.
  - rewrite log_transaction_spec. case_decide; [|done].
    unfold transaction_ids; simpl. rewrite fmap_app.
    split_and!; try done. by apply rowids_ok_snoc.
Qed.

Lemma reachable_rowids_ok db :
  reachable db →
  rowids_ok (seq_items db) (item_ids db)
  ∧ rowids_ok (seq_employees db) (employee_ids db)
  ∧ rowids_ok (seq_transactions db) (transaction_ids db).
Proof.
  induction 1 as [|db op _ IH]; [|by apply rowids_ok_run].
  unfold rowids_ok; simpl. split_and!; by repeat constructor.
Qed.

(** X3: every state reached from a new database satisfies the schema
    (identifiers, item triples and badges are unique; transactions and
    stock levels refer to existing rows), and in each of the three
    AUTOINCREMENT tables the identifiers are positive and increase with
    the order of insertion, so no identifier is ever used twice. *)
Theorem reachable_state_is_well_formed db :
  reachable db →
  schema_ok db
  ∧ Forall (λ x, 1 ≤ x) (item_ids db ++ employee_ids db ++ transaction_ids db)
  ∧ StronglySorted Z.lt (item_ids db)
  ∧ StronglySorted Z.lt (employee_ids db)
  ∧ StronglySorted Z.lt (transaction_ids db).
Proof.
  intros Hreach.
  destruct (reachable_rowids_ok db Hreach)
    as ((_ & Hi1 & Hi2) & (_ & He1 & He2) & (_ & Ht1 & Ht2)).
  split_and!; try done; [by apply reachable_schema_ok|].
  by rewrite !Forall_app.
Qed.

Lemma reachable_scenario_a : reachable scenario_a.
Proof.
  unfold scenario_a. repeat apply reachable_step. apply reachable_init.
Qed.

Lemma reachable_state_is_well_formed_witness :
  item_ids scenario_a = [1]
  ∧ transaction_ids scenario_a = [1; 2]
  ∧ schema_ok scenario_a
  ∧ StronglySorted Z.lt (transaction_ids scenario_a).
Proof.
  split; [by vm_compute|]. split; [by vm_compute|].
  destruct (reachable_state_is_well_formed scenario_a reachable_scenario_a)
    as (H1 & _ & _ & _ & H2).
  done.
Defined.

(** ** Resolving names *)

Lemma sorted_lookup_le {A} (f : A → Z) (l : list A) j k x y :
  StronglySorted Z.lt (f <$> l) →
  l !! j = Some x → l !! k = Some y → (j ≤ k)%nat → f x ≤ f y.
Proof.
  revert j k. induction l as [|a l IH]; intros j k; [done|]. csimpl.
  intros [Hall Hl]%StronglySorted_cons Hj Hk Hjk.
  destruct j as [|j], k as [|k]; simplify_eq/=; try lia.
  - rewrite Forall_forall in Hall.
    assert (f x < f y); [|lia]. apply Hall.
    by eapply list_elem_of_fmap_2, list_elem_of_lookup_2.
  - eapply IH; eauto. lia.
Qed.

(** X4: [get_employee] resolves a name exactly and reads only.  In a
    reachable state it returns a row of the table with exactly that name,
    the one with the smallest identifier among those of that name; it
    raises [ValueError] with the message "未找到员工：" followed by the
    name exactly when no employee has the name.  Either way the database
    is unchanged. *)
Theorem get_employee_resolves name db :
  reachable db →
  match get_employee name db with
  | (Ok e, db') =>
      db' = db ∧ e ∈ employees db ∧ emp_name e = name
      ∧ ∀ e', e' ∈ employees db → emp_name e' = name → emp_id e ≤ emp_id e'
  | (Raise err, db') =>
      db' = db ∧ err = ValueError (EMPLOYEE_NOT_FOUND ++ name)
      ∧ ∀ e', e' ∈ employees db → emp_name e' ≠ name
  end.
Proof.
  intros Hreach. rewrite get_employee_spec.
  destruct (list_find _ _) as [[k e]|] eqn:Hfind.
  - apply list_find_Some in Hfind as (Hk & Hname & Hmin).
    split_and!; [done|by eapply list_elem_of_lookup_2|done|].
    intros e' [j Hj]%list_elem_of_lookup Hname'.
    destruct (reachable_rowids_ok db Hreach) as (_ & (_ & _ & Hsorted) & _).
    eapply (sorted_lookup_le emp_id); eauto.
    destruct (decide (j < k)%nat) as [Hlt|]; [|lia].
    by destruct (Hmin j e' Hj Hlt).
  - apply list_find_None in Hfind. rewrite Forall_forall in Hfind.
    split_and!; try done.
Qed.

Lemma get_employee_resolves_witness :
  (get_employee (str "Ann") scenario_a).1
  = Ok (mkEmployee 1 (str "Ann") (str "guard") None)
  ∧ (get_employee (str "ann") scenario_a).1
    = Raise (ValueError (EMPLOYEE_NOT_FOUND ++ str "ann"))
  ∧ (get_employee (str "ann") scenario_a).2 = scenario_a.
Proof.
  split; [by vm_compute|].
  pose proof (get_employee_resolves (str "ann") scenario_a
                reachable_scenario_a) as H.
  destruct (get_employee (str "ann") scenario_a) as [[e|err] db'] eqn:E.
  - destruct H as (_ & _ & Hname & _). exfalso.
    rewrite get_employee_spec in E. vm_compute in E. discriminate.
  - destruct H as (-> & -> & _). done.
Defined.

(** X5: [ensure_item] never creates.  On a database that satisfies its
    schema it returns the one item row with exactly the given name, size
    and category; when there is none it raises [ValueError] with the
    message that asks for add-item, followed by the triple.  Either way
    the database is unchanged. *)
Theorem ensure_item_resolves name size category db :
  schema_ok db →
  match ensure_item name size category db with
  | (Ok i, db') =>
      db' = db ∧ i ∈ items db ∧ item_key i = (name, size, category)
      ∧ ∀ i', i' ∈ items db → item_key i' = (name, size, category) → i' = i
  | (Raise err, db') =>
      db' = db
      ∧ err = ValueError (ITEM_NOT_FOUND ++ name ++ str " " ++ size
                            ++ str " " ++ category)
      ∧ ∀ i', i' ∈ items db → item_key i' ≠ (name, size, category)
  end.
Proof.
  intros (_ & _ & Hk & _). rewrite ensure_item_spec.
  destruct (list_find _ _) as [[k i]|] eqn:Hfind.
  - apply list_find_Some in Hfind as (Hk' & Hkey & _).
    apply list_elem_of_lookup_2 in Hk'.
    split_and!; try done.
    intros i' Hi' Hkey'. eapply (NoDup_fmap_eq item_key); eauto. congruence.
  - apply list_find_None in Hfind. rewrite Forall_forall in Hfind.
    split_and!; try done.
Qed.

Lemma ensure_item_resolves_witness :
  ensure_item (str "Shirt") (str "M") (str "Summer") scenario_a
  = (Raise (ValueError (ITEM_NOT_FOUND ++ str "Shirt M Summer")), scenario_a).
Proof.
  pose proof (ensure_item_resolves (str "Shirt") (str "M") (str "Summer")
                scenario_a) as H.
  destruct (ensure_item (str "Shirt") (str "M") (str "Summer") scenario_a)
    as [[i|err] db'] eqn:E.
  - exfalso. rewrite ensure_item_spec in E. vm_compute in E. discriminate.
  - destruct H as (-> & -> & _); [compute_done|]. done.
Defined.



(** X7: what [add_employee] has stored, [get_employee] finds, when the
    name is new.  If no employee had the name before, then after
    [add_employee], with or without a badge, also when the badge was
    taken and its row was updated, [get_employee] for the name returns
    the very row [add_employee] returned. *)
Theorem add_employee_then_get_employee name role badge db :
  (∀ e, e ∈ employees db → emp_name e ≠ name) →
  ∃ e db',
    add_employee name role badge db = (Ok e, db')
    ∧ get_employee name db' = (Ok e, db').
Proof.
  intros Hnew. rewrite add_employee_spec. unfold upsert_employee.
  destruct (badge ≫= _) as [[k e0]|] eqn:Hfind; simpl;
    eexists _, _; (split; [done|]); rewrite get_employee_spec; simpl.
  - destruct badge as [b|]; [|done]. simpl in Hfind.
    apply list_find_Some in Hfind as (Hk & _).
    apply list_elem_of_lookup_2 in Hk.
    set (e' := mkEmployee (emp_id e0) name role (emp_badge e0)).
    destruct (list_find _ (replace_employee e' (employees db)))
      as [[j e]|] eqn:Hfind'.
    + apply list_find_Some in Hfind' as (Hj & Hname & _).
      apply list_elem_of_lookup_2, list_elem_of_fmap in Hj
        as (r & -> & Hr).
      case_decide; [done|]. by destruct (Hnew r Hr).
    + apply list_find_None in Hfind'. rewrite Forall_forall in Hfind'.
      destruct (Hfind' e'); [|done].
      apply list_elem_of_fmap. exists e0. by rewrite decide_True.
  - set (e' := mkEmployee _ name role badge).
    destruct (list_find _ (employees db ++ [e'])) as [[j e]|] eqn:Hfind'.
    + apply list_find_Some in Hfind' as (Hj & Hname & _).
      apply list_elem_of_lookup_2, elem_of_app in Hj
        as [Hold| ->%list_elem_of_singleton]; [|done].
      by destruct (Hnew e Hold).
    + apply list_find_None in Hfind'. rewrite Forall_forall in Hfind'.
      destruct (Hfind' e'); [|done]. apply elem_of_app. right. by left.
Qed.

Lemma add_employee_then_get_employee_witness :
  ∃ e db',
    add_employee (str "Bob") [] (Some (str "7")) scenario_a = (Ok e, db')
    ∧ get_employee (str "Bob") db' = (Ok e, db').
Proof.
  apply (add_employee_then_get_employee (str "Bob") [] (Some (str "7"))
           scenario_a).
  intros e He. vm_compute in He.
  apply list_elem_of_singleton in He as ->. by vm_compute.
Defined.

(** ** Registering an employee under a badge *)

Lemma NoDup_omap_eq {A B} (g : A → option B) (l : list A) x y b :
  NoDup (omap g l) → x ∈ l → y ∈ l → g x = Some b → g y = Some b → x = y.
Proof.
  induction l as [|a l IH]; [by intros _ ?%elem_of_nil|].
  csimpl. intros Hnd [->|Hx]%elem_of_cons [->|Hy]%elem_of_cons Hgx Hgy;
    [done| | |].
  - rewrite Hgx in Hnd. simpl in Hnd. apply NoDup_cons in Hnd as [Hb _].
    destruct Hb. apply list_elem_of_omap. by exists y.
  - rewrite Hgy in Hnd. simpl in Hnd. apply NoDup_cons in Hnd as [Hb _].
    destruct Hb. apply list_elem_of_omap. by exists x.
  - apply IH; try done. destruct (g a); simpl in Hnd; [|done].
    by apply NoDup_cons in Hnd as [_ ?].
Qed.

Lemma filter_unique_omap {A B} `{EqDecision B} (g : A → option B)
    (l : list A) x b :
  NoDup (omap g l) → x ∈ l → g x = Some b →
  filter (λ y, g y = Some b) l = [x].
Proof.
  intros Hnd Hx Hgx.
  induction l as [|a l IH]; [by apply elem_of_nil in Hx|].
  csimpl in Hnd. destruct (decide (g a = Some b)) as [Ha|Ha].
  - rewrite Ha in Hnd. simpl in Hnd. apply NoDup_cons in Hnd as [Hb Hnd].
    assert (∀ y, y ∈ l → g y ≠ Some b) as Hrest.
    { intros y Hy Hgy. apply Hb, list_elem_of_omap. by exists y. }
    rewrite filter_cons_True by done.
    apply elem_of_cons in Hx as [->|Hx]; [|by destruct (Hrest x Hx)].
    f_equal. apply filter_none, Forall_forall, Hrest.
  - rewrite filter_cons_False by done.
    apply elem_of_cons in Hx as [->|Hx]; [done|].
    apply IH; [|done]. destruct (g a); simpl in Hnd; [|done].
    by apply NoDup_cons in Hnd as [_ ?].
Qed.

Lemma add_employee_badge_returns name role badge db :
  ∃ e db',
    add_employee name role (Some badge) db = (Ok e, db')
    ∧ emp_name e = name ∧ emp_role e = role ∧ emp_badge e = Some badge
    ∧ e ∈ employees db'
    ∧ items db' = items db
    ∧ stock_levels db' = stock_levels db
    ∧ transactions db' = transactions db.
Proof.
  rewrite add_employee_spec. unfold upsert_employee. simpl.
  destruct (list_find _ _) as [[k e0]|] eqn:Hfind; simpl;
    eexists _, _; (split; [done|]); simpl.
  - apply list_find_Some in Hfind as (Hk & Hbadge & _).
    apply list_elem_of_lookup_2 in Hk.
    split_and!; try done.
    apply list_elem_of_fmap. exists e0. by rewrite decide_True.
  - split_and!; try done. apply elem_of_app. right. by left.
Qed.

(** X8: [add_employee] is an upsert on the badge.  On a database that
    satisfies its schema, two registrations under one badge return rows
    with the same identifier; after each of them exactly one employee
    carries the badge, the row returned; the second registration
    replaces the name and role of that row and changes nothing else: the
    number of employees, the other employees, the items, the stock
    levels and the transactions are as they were. *)
Theorem add_employee_same_badge name role name' role' badge db :
  schema_ok db →
  ∃ e1 db1 e2 db2,
    add_employee name role (Some badge) db = (Ok e1, db1)
    ∧ add_employee name' role' (Some badge) db1 = (Ok e2, db2)
    ∧ e2 = mkEmployee (emp_id e1) name' role' (Some badge)
    ∧ filter (λ e, emp_badge e = Some badge) (employees db1) = [e1]
    ∧ filter (λ e, emp_badge e = Some badge) (employees db2) = [e2]
    ∧ length (employees db2) = length (employees db1)
    ∧ (∀ e, e ∈ employees db2 ↔ e = e2 ∨ (e ∈ employees db1 ∧ e ≠ e1))
    ∧ items db2 = items db1
    ∧ stock_levels db2 = stock_levels db1
    ∧ transactions db2 = transactions db1.
Proof.
  intros Hok.
  destruct (add_employee_badge_returns name role badge db)
    as (e1 & db1 & E1 & _ & _ & Hb1 & Hin1 & _).
  pose proof (schema_ok_add_employee name role (Some badge) db Hok) as Hok1.
  rewrite E1 in Hok1. simpl in Hok1.
  pose proof (schema_ok_add_employee name' role' (Some badge) db1 Hok1)
    as Hok2.
  destruct Hok1 as (_ & Hid1 & _ & Hbadge1 & _).
  pose proof (filter_unique_omap emp_badge (employees db1) e1 badge
                Hbadge1 Hin1 Hb1) as Hfilter1.
  assert (∃ k, list_find (λ e, emp_badge e = Some badge) (employees db1)
               = Some (k, e1)) as [k Hfind].
  { destruct (list_find _ (employees db1)) as [[k e]|] eqn:Hfind.
    - apply list_find_Some in Hfind as (Hk & Hb & _).
      apply list_elem_of_lookup_2 in Hk. exists k. do 2 f_equal.
      by eapply (NoDup_omap_eq emp_badge (employees db1)).
    - apply list_find_None in Hfind. rewrite Forall_forall in Hfind.
      by destruct (Hfind e1 Hin1). }
  pose proof (add_employee_spec name' role' (Some badge) db1) as E2.
  unfold upsert_employee in E2. simpl in E2. rewrite Hfind in E2.
  simpl in E2. rewrite Hb1 in E2.
  rewrite E2 in Hok2. simpl in Hok2.
  destruct Hok2 as (_ & _ & _ & Hbadge2 & _). simpl in Hbadge2.
  set (e2 := mkEmployee (emp_id e1) name' role' (Some badge)) in *.
  assert (e2 ∈ replace_employee e2 (employees db1)) as Hin2.
  { apply list_elem_of_fmap. exists e1. by rewrite decide_True. }
  eexists e1, db1, e2, _. split; [done|]. split; [exact E2|]. simpl.
  split_and!; try done.
  - by apply (filter_unique_omap emp_badge).
  - unfold replace_employee. by rewrite length_fmap.
  - intros e. unfold replace_employee. rewrite list_elem_of_fmap. split.
    + intros (r & -> & Hr). case_decide as Heq; [by left|].
      right. split; [done|]. by intros ->.
    + intros [->|[He Hne]]; [exists e1; by rewrite decide_True|].
      exists e. split; [|done]. rewrite decide_False; [done|].
      intros Heq. apply Hne. by eapply (NoDup_fmap_eq emp_id).
Qed.

Lemma add_employee_same_badge_witness :
  ∃ e1 db1 e2 db2,
    add_employee (str "Bob") [] (Some (str "7")) scenario_a = (Ok e1, db1)
    ∧ add_employee (str "Rob") (str "chief") (Some (str "7")) db1
      = (Ok e2, db2)
    ∧ emp_id e2 = emp_id e1
    ∧ length (employees db2) = 2%nat.
Proof.
  destruct (add_employee_same_badge (str "Bob") [] (str "Rob") (str "chief")
              (str "7") scenario_a)
    as (e1 & db1 & e2 & db2 & H1 & H2 & -> & _ & _ & H3 & _).
  - compute_done.
  - eexists e1, db1, _, db2. split; [done|]. split; [done|].
    split; [done|].
    rewrite H3. vm_compute in H1. by injection H1 as _ <-.
Defined.

(** ** The reports *)

(** X9: what [get_status_rows] returns on any database.  It writes
    nothing and returns as many rows as there are items, one per item,
    sorted by (name, size); a row carries the identifier, name, size,
    category and minimum stock of its item and the item's stock level,
    NULL when the item has none; the alert is the low-stock text when
    that quantity is a number below the minimum stock and empty
    otherwise. *)
Theorem status_report_rows db :
  ∃ rows,
    get_status_rows db = (Ok rows, db)
    ∧ length rows = length (items db)
    ∧ rows ≡ₚ status_row db <$> items db
    ∧ StronglySorted (key_le (λ r, (sr_name r, sr_size r))) rows
    ∧ ∀ r, r ∈ rows →
        (∃ i, i ∈ items db
              ∧ (sr_id r, sr_name r, sr_size r, sr_category r, sr_min_stock r)
                = (item_id i, item_name i, item_size i, item_category i,
                   item_min_stock i))
        ∧ sr_quantity r = stock_levels db !! sr_id r
        ∧ (sr_alert r = LOW_STOCK_ALERT ∨ sr_alert r = [])
        ∧ (sr_alert r = LOW_STOCK_ALERT ↔
           ∃ q, sr_quantity r = Some q ∧ q < sr_min_stock r).
Proof.
  destruct (get_status_rows_spec db) as (rows & E & Hperm & Hsorted & Hrows).
  exists rows. split_and!; try done.
  - by rewrite Hperm, length_fmap.
  - intros r Hr. destruct (Hrows r Hr) as [Hq Halert].
    split_and!; try done.
    + rewrite Hperm in Hr. apply list_elem_of_fmap in Hr as (i & -> & Hi).
      by exists i.
    + rewrite Hperm in Hr. apply list_elem_of_fmap in Hr as (i & -> & Hi).
      unfold status_row; simpl.
      destruct (sql_lt _ _) as [[]|]; simpl; [by left|by right|by right].
Qed.





(** X12: [list_employees] writes nothing and returns every employee
    row, each once, sorted by name. *)
Theorem list_employees_rows db :
  ∃ rows,
    list_employees db = (Ok rows, db)
    ∧ rows ≡ₚ employees db
    ∧ StronglySorted (λ a b, text_le (emp_name a) (emp_name b)) rows.
Proof.
  eexists. split; [reflexivity|]. split; [apply order_by_perm|].
  apply (order_by_sorted emp_name).
Qed.

(** ** More on the history *)

Lemma elem_of_left_join_Some {A} (l : list A) a :
  Some a ∈ left_join l ↔ a ∈ l.
Proof.
  destruct l as [|b l]; simpl.
  - split; [|by intros ?%elem_of_nil].
    by intros [=]%list_elem_of_singleton.
  - rewrite <-(list_elem_of_fmap_inj Some (b :: l) a). done.
Qed.

Lemma elem_of_left_join_None {A} (l : list A) :
  None ∈ left_join l ↔ l = [].
Proof.
  destruct l as [|b l]; simpl.
  - split; [done|]. intros _. by left.
  - split; [|done]. intros [[=]|H]%elem_of_cons.
    by apply list_elem_of_fmap in H as (x & [=] & _).
Qed.

(** X13: the rows of [search_transactions], whatever the filters.  On a
    database that satisfies its schema it writes nothing and never
    invents or repeats a movement: the identifiers of its rows are,
    counted with multiplicity, among those of the ledger.  Every row
    copies the identifier, type, quantity, note and timestamp of one
    transaction and the name, size and category of that transaction's
    item; its employee column is the name of the transaction's employee,
    and empty when the transaction has none. *)
Theorem history_rows_come_from_the_ledger name employee db :
  schema_ok db →
  ∃ rows,
    search_transactions name employee db = (Ok rows, db)
    ∧ h_id <$> rows ⊆+ transaction_ids db
    ∧ ∀ r, r ∈ rows →
        ∃ t i,
          t ∈ transactions db ∧ i ∈ items db ∧ item_id i = txn_item_id t
          ∧ (h_id r, h_type r, h_quantity r, h_note r, h_created_at r)
            = (txn_id t, txn_type t, txn_quantity t, txn_note t,
               txn_created_at t)
          ∧ (h_name r, h_size r, h_category r)
            = (item_name i, item_size i, item_category i)
          ∧ match txn_employee_id t with
            | Some id =>
                ∃ e, e ∈ employees db ∧ emp_id e = id
                     ∧ h_employee r = emp_name e
            | None => h_employee r = []
            end.
Proof.
  intros Hok. eexists. split; [reflexivity|]. split.
  - rewrite <-list_fmap_compose. unfold order_by_desc.
    rewrite merge_sort_Permutation.
    unfold transaction_ids. rewrite <-(history_join_transactions db Hok).
    rewrite <-list_fmap_compose.
    erewrite (list_fmap_ext _ (txn_id ∘ (λ r, r.1.1)));
      [|by intros k [[t i] e] _].
    apply fmap_submseteq, sublist_submseteq, sublist_filter.
  - intros r (t & i & e & -> & Hjoin & _)%elem_of_search_rows.
    apply elem_of_history_join in Hjoin as (Ht & Hi & Hid & He).
    exists t, i. split_and!; try done. simpl.
    destruct Hok as (_ & Hemp & _ & _ & _ & Hfk & _).
    rewrite Forall_forall in Hfk. specialize (Hfk t Ht).
    destruct (txn_employee_id t) as [id|] eqn:Hte; simpl in *.
    + destruct e as [e|].
      * apply elem_of_left_join_Some, list_elem_of_filter in He as [[= Heq] He].
        by exists e.
      * apply elem_of_left_join_None in He.
        apply list_elem_of_fmap in Hfk as (e & -> & He').
        destruct (filter_nil_not_elem_of _ _ e He eq_refl He').
    + destruct e as [e|]; [|done].
      by apply elem_of_left_join_Some, list_elem_of_filter in He as [[=] _].
Qed.

Lemma history_rows_come_from_the_ledger_witness :
  ∃ rows,
    search_transactions None (Some (str "An")) scenario_a
    = (Ok rows, scenario_a)
    ∧ h_id <$> rows = [2]
    ∧ h_id <$> rows ⊆+ transaction_ids scenario_a.
Proof.
  destruct (history_rows_come_from_the_ledger None (Some (str "An"))
              scenario_a) as (rows & E & Hsub & _); [compute_done|].
  exists rows. split; [done|]. split; [|done].
  vm_compute in E. by injection E as <-.
Defined.

(** X14: the employee filter of [search_transactions].  With a
    non-empty employee filter every returned row belongs to a
    transaction that has an employee, whose name matches the pattern
    [%filter%]; a movement without an employee (a stock-in, an
    adjustment) is never returned. *)
Theorem history_by_employee name c rest db :
  ∃ rows,
    search_transactions name (Some (c :: rest)) db = (Ok rows, db)
    ∧ ∀ r, r ∈ rows →
        like (contains_pattern (c :: rest)) (h_employee r) = true
        ∧ ∃ t e,
            t ∈ transactions db ∧ e ∈ employees db
            ∧ txn_employee_id t = Some (emp_id e)
            ∧ h_id r = txn_id t ∧ h_employee r = emp_name e.
Proof.
  eexists. split; [reflexivity|].
  intros r (t & i & e & -> & Hjoin & _ & Hlike)%elem_of_search_rows.
  apply elem_of_history_join in Hjoin as (Ht & _ & _ & He).
  destruct e as [e|]; [|done]. simpl in *.
  apply elem_of_left_join_Some, list_elem_of_filter in He as [Heq He].
  split; [done|]. by exists t, e.
Qed.

(** X15: the label of a history row.  For the four known types it is
    the Chinese label of the type; for any other type string, which
    [log_transaction] accepts, it is the type string itself. *)
Theorem history_type_label name employee db :
  ∃ rows,
    search_transactions name employee db = (Ok rows, db)
    ∧ ∀ r, r ∈ rows →
        (h_type r = str "stock_in" →
         h_type_label r = [20837; 24211; 47; 34917; 36135]%N)
        ∧ (h_type r = str "issue" → h_type_label r = [21457; 25918]%N)
        ∧ (h_type r = str "return" → h_type_label r = [24402; 36824]%N)
        ∧ (h_type r = str "adjust" →
           h_type_label r = [30424; 28857; 35843; 25972]%N)
        ∧ (h_type r ∉ TRANSACTION_TYPES → h_type_label r = h_type r).
Proof.
  eexists. split; [reflexivity|].
  intros r (t & i & e & -> & _)%elem_of_search_rows. simpl.
  split_and!; try (intros ->; by vm_compute).
  unfold TRANSACTION_TYPES.
  rewrite !not_elem_of_union, !not_elem_of_singleton.
  intros (((H1 & H2) & H3) & H4).
  unfold TRANSACTION_LABELS. simpl.
  by rewrite !lookup_insert_ne, lookup_empty by done.
Qed.

Lemma like_cons c p s :
  like (c :: p) s =
  if decide (c = 37%N) then
    like p s || match s with
                | [] => false
                | _ :: s' => like (c :: p) s'
                end
  else
    match s with
    | [] => false
    | d :: s' =>
        (bool_decide (c = 95%N) || bool_decide (ascii_lower c = ascii_lower d))
        && like p s'
    end.
Proof. destruct s; simpl; by destruct (decide (c = 37%N)). Qed.

Lemma ascii_lower_facts c :
  (ascii_lower c = 37%N ↔ c = 37%N)
  ∧ (ascii_lower c = 95%N ↔ c = 95%N)
  ∧ ascii_lower (ascii_lower c) = ascii_lower c.
Proof. unfold ascii_lower. repeat case_decide; lia. Qed.

Lemma like_lower p s : like (ascii_lower <$> p) s = like p s.
Proof.
  revert s. induction p as [|c p IH]; intros s; [done|]. rewrite fmap_cons.
  destruct (ascii_lower_facts c) as (H37 & H95 & Hidem).
  destruct (decide (c = 37%N)) as [->|Hc].
  - rewrite (proj2 H37 eq_refl).
    induction s as [|d s IHs].
    + by rewrite !like_percent, IH.
    + rewrite (like_percent _ (d :: s)), (like_percent p (d :: s)).
      by rewrite IH, IHs.
  - rewrite !like_cons.
    rewrite (decide_False (P:=ascii_lower c = 37%N)) by (by rewrite H37).
    rewrite (decide_False (P:=c = 37%N)) by done.
    destruct s as [|d s]; [done|]. rewrite IH, Hidem.
    by rewrite (bool_decide_ext _ _ H95).
Qed.

Lemma like_filter_lower (param column : option text) :
  like_filter ((λ s : text, ascii_lower <$> s) <$> param) column
  = like_filter param column.
Proof.
  destruct param as [[|c rest]|], column as [v|]; try done.
  change (like (contains_pattern (ascii_lower <$> (c :: rest))) v
          = like (contains_pattern (c :: rest)) v).
  assert (contains_pattern (ascii_lower <$> (c :: rest))
          = ascii_lower <$> contains_pattern (c :: rest)) as ->.
  { unfold contains_pattern. by rewrite !fmap_app. }
  apply like_lower.
Qed.

(** X16: the filters of [search_transactions] ignore the case of ASCII
    letters.  Two name filters, and two employee filters, that differ
    only in the case of the letters A to Z give the same rows. *)
Theorem history_filters_ignore_ascii_case
    (name name' employee employee' : option text) db :
  (λ s : text, ascii_lower <$> s) <$> name
  = (λ s : text, ascii_lower <$> s) <$> name' →
  (λ s : text, ascii_lower <$> s) <$> employee
  = (λ s : text, ascii_lower <$> s) <$> employee' →
  search_transactions name employee db
  = search_transactions name' employee' db.
Proof.
  intros Hname Hemp.
  assert (∀ column, like_filter name column = like_filter name' column) as H1.
  { intros column.
    by rewrite <-(like_filter_lower name), Hname, like_filter_lower. }
  assert (∀ column, like_filter employee column
                    = like_filter employee' column) as H2.
  { intros column.
    by rewrite <-(like_filter_lower employee), Hemp, like_filter_lower. }
  unfold search_transactions, with_connection, mbind, conn_bind, select,
    mret, conn_ret. simpl.
  do 4 f_equal. apply list_filter_iff. intros [[t i] e]. simpl.
  by rewrite H1, H2.
Qed.

Lemma history_filters_ignore_ascii_case_witness :
  search_transactions (Some (str "SHIRT")) None scenario_a
  = search_transactions (Some (str "shirt")) None scenario_a
  ∧ ∃ rows,
      (search_transactions (Some (str "SHIRT")) None scenario_a).1 = Ok rows
      ∧ h_id <$> rows = [2; 1].
Proof.
  split.
  - by apply (history_filters_ignore_ascii_case (Some (str "SHIRT"))
                (Some (str "shirt")) None None scenario_a).
  - eexists. split; by vm_compute.
Defined.

(** ** More on the adapters *)

Lemma handle_action_spec {A} (action : conn A) db :
  _handle_action action db
  = (Ok (action db).1,
     (action db).2).
Proof. unfold _handle_action. by destruct (action db) as [[a|e] db']. Qed.









(** X20: the [/add-employee] form never raises; it strips the name and
    the role, and reads an empty or missing badge field as no badge at
    all.  With a badge typed in, the employee is stored under that badge,
    as typed; with none, a new employee row is appended every time, also
    when the form is sent twice. *)
Theorem web_add_employee f db :
  ∃ e db',
    add_employee_route f db = (Ok (Ok e), db')
    ∧ emp_name e = strip (default [] (eform_name f))
    ∧ emp_role e = strip (default [] (eform_role f))
    ∧ match eform_badge f with
      | Some (c :: rest) => emp_badge e = Some (c :: rest)
      | _ =>
          emp_badge e = None
          ∧ employees db' = employees db ++ [e]
          ∧ emp_id e ∉ employee_ids db
      end.
Proof.
  unfold add_employee_route. rewrite handle_action_spec, add_employee_spec.
  unfold upsert_employee, field.
  destruct (eform_badge f) as [[|c rest]|]; simpl.
  - eexists _, _. split; [done|]. simpl. split_and!; try done.
    apply next_rowid_fresh.
  - destruct (list_find _ _) as [[k e0]|] eqn:Hfind; simpl;
      eexists _, _; (split; [done|]); simpl; split_and!; try done.
    by apply list_find_Some in Hfind as (_ & ? & _).
  - eexists _, _. split; [done|]. simpl. split_and!; try done.
    apply next_rowid_fresh.
Qed.




(** X22: the dashboard only reads.  On a database that satisfies its
    schema it leaves the database unchanged and hands over the results
    of [get_status_rows], [list_employees] and [list_items] and, as the
    recent history, the first rows of the unfiltered history: 10 of
    them, or all when there are fewer transactions; no movement left out
    has a later timestamp than one that is shown. *)
Theorem dashboard_reads_only db :
  schema_ok db →
  ∃ page history,
    dashboard db = (Ok page, db)
    ∧ get_status_rows db = (Ok (page_status_rows page), db)
    ∧ list_employees db = (Ok (page_employees page), db)
    ∧ list_items db = (Ok (page_items page), db)
    ∧ search_transactions None None db = (Ok history, db)
    ∧ length (page_recent_history page)
      = (10 `min` length (transactions db))%nat
    ∧ ∃ older,
        history = page_recent_history page ++ older
        ∧ ∀ r r', r ∈ page_recent_history page → r' ∈ older →
            text_le (h_created_at r') (h_created_at r).
Proof.
  intros Hok. eexists _, _. split; [reflexivity|]. simpl.
  split_and!; try reflexivity.
  - rewrite length_take, length_fmap. unfold order_by_desc.
    rewrite merge_sort_Permutation, filter_all
      by (apply Forall_forall; by intros [[??]?] _).
    by rewrite <-(history_join_transactions db Hok), length_fmap.
  - eexists (drop 10 _). split; [by rewrite take_drop|].
    intros r r' Hr Hr'.
    eapply (StronglySorted_app_1_elem_of
              (λ a b, text_le (h_created_at b) (h_created_at a)));
      [|exact Hr|exact Hr'].
    rewrite take_drop.
    eapply StronglySorted_fmap; [|apply order_by_desc_sorted; apply _].
    by intros [[??]?] [[??]?].
Qed.

Lemma dashboard_reads_only_witness :
  ∃ page,
    dashboard scenario_a = (Ok page, scenario_a)
    ∧ length (page_recent_history page) = 2%nat.
Proof.
  destruct (dashboard_reads_only scenario_a)
    as (page & history & E & _ & _ & _ & _ & Hlen & _); [compute_done|].
  exists page. split; [done|]. rewrite Hlen. by vm_compute.
Defined.

(** ** Movements compose *)


(** ** The printed table *)

Lemma length_ljust width s : length (ljust width s) = (width `max` length s)%nat.
Proof. unfold ljust. rewrite length_app, length_replicate. lia. Qed.

Lemma length_join sep parts :
  length (join sep parts)
  = (sum_list (length <$> parts) + length sep * (length parts - 1))%nat.
Proof.
  induction parts as [|p [|p' rest] IH]; [simpl; lia|simpl; lia|].
  change (join sep (p :: p' :: rest)) with (p ++ sep ++ join sep (p' :: rest)).
  rewrite !length_app, IH. csimpl. lia.
Qed.

Lemma mapM_Forall {A B} (f : A → option B) (P : A → B → Prop) (l : list A) :
  (∀ x, x ∈ l → ∃ y, f x = Some y ∧ P x y) →
  ∃ k, mapM f l = Some k ∧ Forall2 P l k.
Proof.
  induction l as [|x l IH]; intros Hf; [by exists []|].
  destruct (Hf x) as (y & Hy & HP); [by left|].
  destruct IH as (k & Hk & HPk); [intros z Hz; apply Hf; by right|].
  exists (y :: k). split; [|by constructor].
  apply mapM_Some. constructor; [done|]. by apply mapM_Some.
Qed.

Lemma Forall2_const_r {A B} (P : B → Prop) (l : list A) (k : list B) :
  Forall2 (λ _ y, P y) l k → Forall P k.
Proof. induction 1; by constructor. Qed.

Lemma widths_bound rows h w :
  widths rows h = Some w →
  (length h ≤ w)%nat
  ∧ ∀ r v, r ∈ rows → cell r h = Some v → (length (py_str v) ≤ w)%nat.
Proof.
  unfold widths. destruct (mapM _ rows) as [cells|] eqn:Hcells; [|done].
  simpl. intros [= <-]. split; [lia|].
  intros r v Hr Hv. apply mapM_Some in Hcells.
  apply list_elem_of_lookup in Hr as [j Hj].
  destruct (Forall2_lookup_l _ _ _ _ _ Hcells Hj) as (v' & Hv' & Hcell).
  assert (v' = v) as -> by congruence.
  assert (length (py_str v) ≤ max_list (length ∘ py_str <$> cells))%nat;
    [|lia].
  apply max_list_elem_of_le, list_elem_of_fmap. exists v.
  split; [done|]. by eapply list_elem_of_lookup_2.
Qed.

Lemma print_table_cons_Some first rest lines :
  _print_table (first :: rest) = Some lines ↔
  ∃ header_cells body,
    mapM (λ h, w ← widths (first :: rest) h; Some (ljust w h)) first.*1
    = Some header_cells
    ∧ mapM (λ r,
        cells ← mapM (λ h, w ← widths (first :: rest) h;
                           v ← cell r h;
                           Some (ljust w (py_str v))) first.*1;
        Some (join (str "  ") cells)) (first :: rest) = Some body
    ∧ lines = join (str "  ") header_cells
              :: replicate (length (join (str "  ") header_cells)) 45%N
              :: body.
Proof.
  change (_print_table (first :: rest)) with (
    header_cells ←
      mapM (λ h, w ← widths (first :: rest) h; Some (ljust w h)) first.*1;
    lines ← mapM (λ r,
        cells ← mapM (λ h, w ← widths (first :: rest) h;
                           v ← cell r h;
                           Some (ljust w (py_str v))) first.*1;
        Some (join (str "  ") cells)) (first :: rest);
    Some (join (str "  ") header_cells
          :: replicate (length (join (str "  ") header_cells)) 45%N
          :: lines)).
  split.
  - intros (hc & Hhc & (body & Hbody & [= <-])%bind_Some)%bind_Some.
    by exists hc, body.
  - intros (hc & body & Hhc & Hbody & ->).
    apply bind_Some. exists hc. split; [done|].
    apply bind_Some. by exists body.
Qed.

Lemma print_table_cells first rest r h :
  is_Some (mapM (λ h, w ← widths (first :: rest) h; Some (ljust w h))
             first.*1) →
  r ∈ first :: rest → h ∈ first.*1 → is_Some (cell r h).
Proof.
  intros [hc Hhc] Hr Hh. apply mapM_Some in Hhc.
  apply list_elem_of_lookup in Hh as [j Hj].
  destruct (Forall2_lookup_l _ _ _ _ _ Hhc Hj) as (c & _ & Hc).
  apply bind_Some in Hc as (w & Hw & _). unfold widths in Hw.
  apply bind_Some in Hw as (cells & Hcells & _).
  apply mapM_Some in Hcells.
  apply list_elem_of_lookup in Hr as [j' Hj'].
  destruct (Forall2_lookup_l _ _ _ _ _ Hcells Hj') as (v & _ & Hv).
  by exists v.
Qed.

(** X24: [_print_table] prints an aligned table.  For no rows it prints
    the one line "暂无记录".  Otherwise it succeeds exactly when every
    row has all the keys of the first row (else it raises KeyError
    before printing anything); it then prints the header, a rule and one
    line per row, and all these lines have the same length, the sum of
    the column widths plus two for each gap; the rule is that many
    dashes. *)
Theorem print_table_is_aligned first rest :
  let rows := first :: rest in
  _print_table [] = Some [NO_RECORDS]
  ∧ (is_Some (_print_table rows) ↔
     ∀ r h, r ∈ rows → h ∈ first.*1 → is_Some (cell r h))
  ∧ ∀ lines, _print_table rows = Some lines →
      ∃ ws,
        mapM (widths rows) first.*1 = Some ws
        ∧ length lines = (2 + length rows)%nat
        ∧ Forall (λ line,
            length line = (sum_list ws + 2 * (length ws - 1))%nat) lines
        ∧ lines !! 1%nat
          = Some (replicate (sum_list ws + 2 * (length ws - 1)) 45%N).
Proof.
  intros rows. split; [done|].
  set (headers := first.*1).
  assert ((∀ r h, r ∈ rows → h ∈ headers → is_Some (cell r h)) →
    ∃ ws header_cells lines,
      mapM (widths rows) headers = Some ws
      ∧ mapM (λ h, w ← widths rows h; Some (ljust w h)) headers
        = Some header_cells
      ∧ length <$> header_cells = ws
      ∧ mapM (λ r,
          cells ← mapM (λ h, w ← widths rows h;
                             v ← cell r h;
                             Some (ljust w (py_str v))) headers;
          Some (join (str "  ") cells)) rows = Some lines
      ∧ length lines = length rows
      ∧ Forall (λ line,
          length line = (sum_list ws + 2 * (length ws - 1))%nat) lines)
    as Huniform.
  { intros Hcells.
    assert (∀ h, h ∈ headers → is_Some (widths rows h)) as Hw.
    { intros h Hh. unfold widths.
      destruct (mapM_Forall (λ r, cell r h) (λ _ _, True) rows)
        as (cells & -> & _); [|done].
      intros r Hr. destruct (Hcells r h Hr Hh) as [v Hv]. by exists v. }
    destruct (mapM_Forall (widths rows) (λ _ _, True) headers)
      as (ws & Hws & _).
    { intros h Hh. destruct (Hw h Hh) as [w ?]. by exists w. }
    apply mapM_Some in Hws as Hws2.
    assert (∀ (F : text → nat → option text),
      (∀ h w, h ∈ headers → widths rows h = Some w →
              ∃ c, F h w = Some c ∧ length c = w) →
      ∃ cells, mapM (λ h, w ← widths rows h; F h w) headers = Some cells
               ∧ length <$> cells = ws) as Hpad.
    { intros F HF. clear Hws. revert ws Hws2.
      induction headers as [|h hs IH]; intros ws Hws2.
      - apply Forall2_nil_inv_l in Hws2 as ->. by exists [].
      - apply Forall2_cons_inv_l in Hws2 as (w & ws' & Hwh & Hws' & ->).
        destruct (HF h w) as (c & Hc & Hlen); [by left|done|].
        destruct (IH) with (ws := ws') as (cells & Hcells' & Hlens);
          [intros; apply Hcells; [done|by right]
          |intros; apply Hw; by right
          |intros; apply HF; [by right|done]
          |done|].
        exists (c :: cells). split; [|by rewrite fmap_cons, Hlen, Hlens].
        apply mapM_Some. constructor; [by rewrite Hwh|by apply mapM_Some]. }
    destruct (Hpad (λ h w, Some (ljust w h))) as (header_cells & Hhc & Hhl).
    { intros h w Hh Hwh. eexists. split; [done|].
      rewrite length_ljust. destruct (widths_bound rows h w Hwh). lia. }
    destruct (mapM_Forall
      (λ r, cells ← mapM (λ h, w ← widths rows h;
                               v ← cell r h;
                               Some (ljust w (py_str v))) headers;
            Some (join (str "  ") cells))
      (λ _ line, length line = (sum_list ws + 2 * (length ws - 1))%nat) rows)
      as (lines & Hlines & Hall).
    { intros r Hr.
      destruct (Hpad (λ h w, v ← cell r h; Some (ljust w (py_str v))))
        as (cells & Hcs & Hcl).
      { intros h w Hh Hwh. destruct (Hcells r h Hr Hh) as [v Hv].
        rewrite Hv. eexists. split; [done|].
        rewrite length_ljust.
        destruct (widths_bound rows h w Hwh) as [_ Hb].
        specialize (Hb r v Hr Hv). lia. }
      rewrite Hcs. eexists. split; [done|].
      rewrite length_join, Hcl. f_equal.
      by rewrite <-Hcl, length_fmap. }
    exists ws, header_cells, lines. split_and!; try done.
    - symmetry. by eapply Forall2_length.
    - by eapply Forall2_const_r. }
  split.
  - split.
    + intros [lines Hlines] r h Hr Hh.
      apply print_table_cons_Some in Hlines as (hc & body & Hhc & _).
      by eapply print_table_cells.
    + intros Hcells.
      destruct (Huniform Hcells) as (ws & hc & lines & _ & Hhc & _ & Hl & _).
      eexists. apply print_table_cons_Some. by eexists _, _.
  - intros lines Hlines.
    apply print_table_cons_Some in Hlines as (hc & body & Hhc & Hbody & ->).
    assert (∀ r h, r ∈ rows → h ∈ headers → is_Some (cell r h)) as Hcells.
    { intros r h. by eapply print_table_cells. }
    destruct (Huniform Hcells)
      as (ws & hc' & body' & Hws & Hhc' & Hhl & Hbody' & Hlen & Hall).
    unfold rows, headers in *.
    assert (hc' = hc) as -> by congruence.
    assert (body' = body) as -> by congruence.
    assert (length (join (str "  ") hc)
            = (sum_list ws + 2 * (length ws - 1))%nat) as Hheader.
    { rewrite length_join, Hhl. f_equal. by rewrite <-Hhl, length_fmap. }
    exists ws. split_and!; try done.
    + simpl. by rewrite Hlen.
    + constructor; [done|]. constructor; [|done].
      by rewrite length_replicate.
    + simpl. by rewrite Hheader.
Qed.

Lemma print_table_is_aligned_witness :
  ∃ lines,
    _print_table
      [status_dict (mkStatusRow 1 (str "Shirt") (str "L") (str "Summer")
                      (Some 48) 20 []);
       status_dict (mkStatusRow 2 (str "Cap") [] [] None 5 [])]
    = Some lines
    ∧ length lines = 4%nat
    ∧ Forall (λ line, length line = 53%nat) lines.
Proof.
  eexists. split; [by vm_compute|].
  destruct (print_table_is_aligned
              (status_dict (mkStatusRow 1 (str "Shirt") (str "L")
                              (str "Summer") (Some 48) 20 []))
              [status_dict (mkStatusRow 2 (str "Cap") [] [] None 5 [])])
    as (_ & _ & H).
  edestruct H as (ws & Hws & Hlen & Hall & _); [by vm_compute|].
  split; [done|].
  vm_compute in Hws. injection Hws as <-. exact Hall.
Defined.
